(** * NOVA Protocol: the TTL cache and the market-data price resolver

    A shallow embedding of [src/utils/cache.js] (class [Cache]) and of
    [MarketDataService.getPrice] from [src/services/marketData/index.js],
    followed by the properties of the specification that concern them.

    Conventions of the embedding.
    - Times and durations are whole numbers of milliseconds ([Z]), as
      [Date.now()] returns them and as the callers in the repository pass
      them; a fractional TTL is outside the model. Every call of
      [Date.now()] in the source is a separate argument of the embedded
      function, in the order in which the source performs the calls.
    - A JavaScript [Map] is an association list in insertion order: the
      eviction loop of [Cache.set] depends on the iteration order.
    - The mutable cache object is threaded explicitly: every method returns
      its result together with the cache after the call.
    - Provider calls and log lines are recorded in a trace of events. *)

From Stdlib Require Import ZArith QArith Qabs List String Ascii Bool Lia.
Import ListNotations.

Local Open Scope string_scope.
Local Open Scope Z_scope.

(* ------------------------------------------------------------------ *)
(** ** JavaScript values *)

Module Js.

(** Numbers: a finite value is given by the rational it denotes; the
    three special values are kept apart. Arithmetic that can round (the
    division below) rounds to the nearest binary64 value, as the
    language does. *)
Inductive number : Type :=
| NaN
| PosInf
| NegInf
| Num (q : Q).

Inductive value : Type :=
| Undefined
| Null
| Boolean (b : bool)
| Number (n : number)
| Str (s : string)
| Obj (ref : positive).

Definition of_Z (z : Z) : number := Num (inject_Z z).
Definition of_nat (n : nat) : number := of_Z (Z.of_nat n).

(** ToBoolean on numbers: [0] and [NaN] are falsy. *)
Definition truthy_number (n : number) : bool :=
  match n with
  | NaN => false
  | PosInf | NegInf => true
  | Num q => negb (Qeq_bool q 0)
  end.

(** ToBoolean. *)
Definition truthy (v : value) : bool :=
  match v with
  | Undefined | Null => false
  | Boolean b => b
  | Number n => truthy_number n
  | Str s => negb (String.eqb s "")
  | Obj _ => true
  end.

(** [a || b] on numbers. *)
Definition or_number (a b : number) : number :=
  if truthy_number a then a else b.

(** *** Rounding to binary64 (53 significant bits, exponents of the
    least significant bit from -1074 to 971, round to nearest, ties to
    even) *)

(** The fraction [(n / d) / 2 ^ e], for positive [n] and [d]. *)
Definition scale (n d e : Z) : Z * Z :=
  if 0 <=? e then (n, d * 2 ^ e) else (n * 2 ^ (- e), d).

(** [floor (log2 (n / d))], for positive [n] and [d]. *)
Definition floor_log2 (n d : Z) : Z :=
  let k := Z.log2 n - Z.log2 d in
  let '(sn, sd) := scale n d k in
  if sd <=? sn then k else k - 1.

(** The integer nearest to [sn / sd], ties to the even one ([sd > 0]). *)
Definition round_half_even (sn sd : Z) : Z :=
  let q := sn / sd in
  let r := sn mod sd in
  if 2 * r <? sd then q
  else if sd <? 2 * r then q + 1
  else if Z.even q then q else q + 1.

(** The binary64 value nearest to [n / d], for positive [n] and [d], as
    a significand [m] and the exponent [e] of its last bit: the value is
    [m * 2 ^ e]. The exponent is that of a 53-bit significand, but not
    below -1074 (subnormal range). *)
Definition nearest_double_pos (n d : Z) : Z * Z :=
  let e := Z.max (floor_log2 n d - 52) (- 1074) in
  let '(sn, sd) := scale n d e in
  (round_half_even sn sd, e).

(** The rational [m * 2 ^ e]. *)
Definition dyadic (m e : Z) : Q :=
  if 0 <=? e then inject_Z (m * 2 ^ e) else m # Z.to_pos (2 ^ (- e)).

(** The magnitude: a rounded value of [2 ^ 1024] or more overflows. *)
Definition double_of_pos (n d : Z) : option Q :=
  let '(m, e) := nearest_double_pos n d in
  if (0 <=? e) && (2 ^ 1024 <=? m * 2 ^ e) then None
  else if m =? 0 then Some 0%Q
  else Some (dyadic m e).

(** The double nearest to the fraction [n / d]. *)
Definition double_of_fraction (n : Z) (d : positive) : number :=
  match n with
  | Z0 => Num 0
  | Zpos _ =>
      match double_of_pos n (Zpos d) with
      | Some q => Num q
      | None => PosInf
      end
  | Zneg n' =>
      match double_of_pos (Zpos n') (Zpos d) with
      | Some q => Num (- q)
      | None => NegInf
      end
  end.

(** The double nearest to a rational. *)
Definition to_double (q : Q) : number :=
  double_of_fraction (Qnum q) (Qden q).

(** [a / b] on numbers: the exact quotient, rounded to the nearest
    double (signed zeros are not distinguished). *)
Definition div (a b : number) : number :=
  match a, b with
  | NaN, _ | _, NaN => NaN
  | Num x, Num y =>
      if Qeq_bool y 0 then
        if Qeq_bool x 0 then NaN
        else if Qle_bool 0 x then PosInf else NegInf
      else to_double (x / y)
  | Num _, (PosInf | NegInf) => Num 0
  | (PosInf | NegInf), (PosInf | NegInf) => NaN
  | PosInf, Num y => if Qle_bool 0 y then PosInf else NegInf
  | NegInf, Num y => if Qle_bool 0 y then NegInf else PosInf
  end.

(** [a || d] where [a] is an optional integer argument ([None] is
    [undefined]): [undefined] and [0] select the default. *)
Definition or_default (a : option Z) (d : Z) : Z :=
  match a with
  | Some z => if z =? 0 then d else z
  | None => d
  end.

(** ToBoolean on a variable holding [null] or a string. *)
Definition truthy_key (k : option string) : bool :=
  match k with
  | None => false
  | Some s => negb (String.eqb s "")
  end.

(** [String.prototype.toLowerCase] on ASCII letters. *)
Definition lower_ascii (c : ascii) : ascii :=
  let n := nat_of_ascii c in
  if (65 <=? n)%nat && (n <=? 90)%nat then ascii_of_nat (n + 32) else c.

Fixpoint toLowerCase (s : string) : string :=
  match s with
  | EmptyString => EmptyString
  | String c r => String (lower_ascii c) (toLowerCase r)
  end.

(** [String.prototype.includes]. *)
Fixpoint includes (s sub : string) : bool :=
  if prefix sub s then true
  else match s with
       | EmptyString => false
       | String _ r => includes r sub
       end.

End Js.

(* ------------------------------------------------------------------ *)
(** ** [Map] with string keys, in insertion order *)

Module JsMap.
Section WithValue.

Context {V : Type}.

Definition t : Type := list (string * V).

Definition empty : t := [].

Definition size (m : t) : nat := List.length m.

Fixpoint get (k : string) (m : t) : option V :=
  match m with
  | [] => None
  | (k', v) :: r => if String.eqb k k' then Some v else get k r
  end.

Definition has (k : string) (m : t) : bool :=
  match get k m with Some _ => true | None => false end.

(** [Map.prototype.set]: an existing key keeps its position. *)
Fixpoint set (k : string) (v : V) (m : t) : t :=
  match m with
  | [] => [(k, v)]
  | (k', v') :: r =>
      if String.eqb k k' then (k, v) :: r else (k', v') :: set k v r
  end.

Fixpoint remove (k : string) (m : t) : t :=
  match m with
  | [] => []
  | (k', v) :: r => if String.eqb k k' then r else (k', v) :: remove k r
  end.

(** [Map.prototype.delete]: reports whether the key was present. *)
Definition delete (k : string) (m : t) : bool * t :=
  (has k m, remove k m).

Definition keys (m : t) : list string := List.map fst m.

(** The keys of a [Map] are pairwise distinct. *)
Definition wf (m : t) : Prop := NoDup (keys m).

End WithValue.
Arguments t : clear implicits.
End JsMap.

(* ------------------------------------------------------------------ *)
(** ** [class Cache] *)

Module Cache.

Record entry : Type := mkEntry {
  value : Js.value;
  timestamp : Z;
  expiry : Z
}.

Record statistics : Type := mkStats {
  hits : nat;
  misses : nat;
  sets : nat;
  deletes : nat
}.

Record t : Type := mkCache {
  store : JsMap.t entry;
  ttl : Z;
  max : Z;
  stats : statistics
}.

Record options : Type := mkOptions {
  options_ttl : option Z;
  options_max : option Z
}.

(** [constructor(options = {})]. *)
Definition new (o : options) : t :=
  {| store := JsMap.empty;
     ttl := Js.or_default (options_ttl o) (60 * 1000);
     max := Js.or_default (options_max o) 1000;
     stats := mkStats 0 0 0 0 |}.

Definition with_store (c : t) (s : JsMap.t entry) : t :=
  {| store := s; ttl := ttl c; max := max c; stats := stats c |}.

Definition with_stats (c : t) (st : statistics) : t :=
  {| store := store c; ttl := ttl c; max := max c; stats := st |}.

Definition incr_hits (st : statistics) : statistics :=
  mkStats (S (hits st)) (misses st) (sets st) (deletes st).
Definition incr_misses (st : statistics) : statistics :=
  mkStats (hits st) (S (misses st)) (sets st) (deletes st).
Definition incr_sets (st : statistics) : statistics :=
  mkStats (hits st) (misses st) (S (sets st)) (deletes st).
Definition add_deletes (n : nat) (st : statistics) : statistics :=
  mkStats (hits st) (misses st) (sets st) (deletes st + n).

(** One iteration of the loop that looks for the oldest entry; the
    accumulator is [(oldestKey, oldestTime)]. *)
Definition oldest_step (acc : option string * Z) (ke : string * entry)
  : option string * Z :=
  if timestamp (snd ke) <? snd acc
  then (Some (fst ke), timestamp (snd ke))
  else acc.

(** The loop over [this.store.entries()], started from
    [(null, Date.now())]. *)
Definition find_oldest (s : JsMap.t entry) (now : Z) : option string * Z :=
  fold_left oldest_step s (None, now).

(** The body of [if (this.store.size >= this.max)]. *)
Definition evict (s : JsMap.t entry) (now : Z) : JsMap.t entry :=
  let oldestKey := fst (find_oldest s now) in
  if Js.truthy_key oldestKey then
    match oldestKey with
    | Some k => snd (JsMap.delete k s)
    | None => s
    end
  else s.

(** [set(key, value, ttl)]; [now_scan], [now_stamp] and [now_exp] are
    the three readings of [Date.now()], in program order (the first one
    is only read when the store is full). *)
Definition set (c : t) (key : string) (v : Js.value) (ttl_arg : option Z)
    (now_scan now_stamp now_exp : Z) : bool * t :=
  let s1 :=
    if Z.of_nat (JsMap.size (store c)) >=? max c
    then evict (store c) now_scan
    else store c in
  let s2 :=
    JsMap.set key
      {| value := v;
         timestamp := now_stamp;
         expiry := now_exp + Js.or_default ttl_arg (ttl c) |} s1 in
  (true, with_stats (with_store c s2) (incr_sets (stats c))).

(** [get(key)]; [now] is the reading of [Date.now()]. *)
Definition get (c : t) (key : string) (now : Z) : Js.value * t :=
  match JsMap.get key (store c) with
  | None => (Js.Undefined, with_stats c (incr_misses (stats c)))
  | Some e =>
      if now >? expiry e then
        (Js.Undefined,
         with_stats (with_store c (snd (JsMap.delete key (store c))))
                    (incr_misses (stats c)))
      else (value e, with_stats c (incr_hits (stats c)))
  end.

(** [has(key)]. *)
Definition has (c : t) (key : string) (now : Z) : bool * t :=
  match JsMap.get key (store c) with
  | None => (false, c)
  | Some e =>
      if now >? expiry e
      then (false, with_store c (snd (JsMap.delete key (store c))))
      else (true, c)
  end.

(** [del(key)]. *)
Definition del (c : t) (key : string) : bool * t :=
  let '(result, s) := JsMap.delete key (store c) in
  if result
  then (result, with_stats (with_store c s) (add_deletes 1 (stats c)))
  else (result, with_store c s).

(** [clear()]: the store is emptied first, its size is read afterwards. *)
Definition clear (c : t) : t :=
  let c1 := with_store c JsMap.empty in
  with_stats c1 (add_deletes (JsMap.size (store c1)) (stats c1)).

Record stats_report : Type := mkReport {
  report_hits : nat;
  report_misses : nat;
  report_sets : nat;
  report_deletes : nat;
  size : nat;
  hitRate : Js.number
}.

(** [getStats()]. *)
Definition getStats (c : t) : stats_report :=
  {| report_hits := hits (stats c);
     report_misses := misses (stats c);
     report_sets := sets (stats c);
     report_deletes := deletes (stats c);
     size := JsMap.size (store c);
     hitRate :=
       Js.or_number
         (Js.div (Js.of_nat (hits (stats c)))
                 (Js.of_nat (hits (stats c) + misses (stats c))))
         (Js.of_Z 0) |}.

(** [keys()]. *)
Definition keys (c : t) : list string := JsMap.keys (store c).

Definition expired (now : Z) (e : entry) : bool := now >? expiry e.

(** [values()]: collects the live values and deletes the expired
    entries it meets. *)
Definition values (c : t) (now : Z) : list Js.value * t :=
  let live := filter (fun ke => negb (expired now (snd ke))) (store c) in
  (List.map (fun ke => value (snd ke)) live, with_store c live).

(** [prune()]. *)
Definition prune (c : t) (now : Z) : nat * t :=
  let live := filter (fun ke => negb (expired now (snd ke))) (store c) in
  let count := List.length (filter (fun ke => expired now (snd ke)) (store c)) in
  let c1 := with_store c live in
  if (0 <? count)%nat
  then (count, with_stats c1 (add_deletes count (stats c1)))
  else (count, c1).

(** A method call on a cache, with the clock readings it consumes. *)
Inductive call : Type :=
| CallSet (key : string) (v : Js.value) (ttl_arg : option Z)
          (now_scan now_stamp now_exp : Z)
| CallGet (key : string) (now : Z)
| CallHas (key : string) (now : Z)
| CallDel (key : string)
| CallClear
| CallValues (now : Z)
| CallPrune (now : Z).

Definition exec (c : t) (op : call) : t :=
  match op with
  | CallSet k v a t0 t1 t2 => snd (set c k v a t0 t1 t2)
  | CallGet k now => snd (get c k now)
  | CallHas k now => snd (has c k now)
  | CallDel k => snd (del c k)
  | CallClear => clear c
  | CallValues now => snd (values c now)
  | CallPrune now => snd (prune c now)
  end.

Definition run (c : t) (ops : list call) : t := fold_left exec ops c.

End Cache.

(* ------------------------------------------------------------------ *)
(** ** [src/utils/errors.js]: the errors that [getPrice] meets *)

Module Errors.

Inductive error : Type :=
| AppError (message : string) (statusCode : Z) (code : string)
| Error (message : string).

Definition message (e : error) : string :=
  match e with
  | AppError m _ _ => m
  | Error m => m
  end.

(** [new AppError(message, statusCode)]: the third parameter takes its
    default. *)
Definition new_AppError (m : string) (statusCode : Z) : error :=
  AppError m statusCode "INTERNAL_ERROR".

End Errors.

(* ------------------------------------------------------------------ *)
(** ** [class MarketDataService] *)

Module MarketDataService.

(** A settled promise: the fulfilment value or the rejection reason. *)
Definition settled : Type := (Js.value + Errors.error)%type.

(** A provider, as far as [getPrice] uses it. *)
Record provider : Type := mkProvider {
  getCurrentPrice : string -> settled
}.

Record t : Type := mkService {
  primaryProvider : provider;
  fallbackProviderInstance : option provider
}.

Inductive role : Type := Primary | Fallback.

(** What a call of [getPrice] does besides returning and updating the
    cache. *)
Inductive event : Type :=
| ProviderCall (r : role) (symbol : string)
| LogDebug (line : string)
| LogWarn (line : string)
| LogError (line : string).

Definition is_provider_call (e : event) : bool :=
  match e with ProviderCall _ _ => true | _ => false end.

Definition provider_calls (tr : list event) : list event :=
  filter is_provider_call tr.

(** The module-level [priceCache], as constructed. *)
Definition priceCache : Cache.t :=
  Cache.new (Cache.mkOptions (Some (5 * 60 * 1000)) (Some 100)).

(** The readings of [Date.now()] during one call of [getPrice]: one in
    [priceCache.get], three in the [priceCache.set] that stores a
    fetched price. *)
Record clock : Type := mkClock {
  at_get : Z;
  at_scan : Z;
  at_stamp : Z;
  at_exp : Z
}.

Definition cacheKey (symbol : string) : string :=
  "price:" ++ Js.toLowerCase symbol.

(** [async getPrice(symbol)], run to completion; the argument [pc] is
    the state of [priceCache] when the call starts. *)
Definition getPrice (svc : t) (pc : Cache.t) (symbol : string) (clk : clock)
  : settled * Cache.t * list event :=
  let key := cacheKey symbol in
  let '(cachedPrice, pc1) := Cache.get pc key (at_get clk) in
  if Js.truthy cachedPrice then
    (inl cachedPrice, pc1, [LogDebug ("Using cached price for " ++ symbol)])
  else
    let store_price price :=
      snd (Cache.set pc1 key price None
             (at_scan clk) (at_stamp clk) (at_exp clk)) in
    match getCurrentPrice (primaryProvider svc) symbol with
    | inl price =>
        (inl price, store_price price, [ProviderCall Primary symbol])
    | inr error =>
        let warn :=
          LogWarn ("Primary provider failed for " ++ symbol ++ " price: "
                   ++ Errors.message error) in
        match fallbackProviderInstance svc with
        | Some fallback =>
            match getCurrentPrice fallback symbol with
            | inl price =>
                (inl price, store_price price,
                 [ProviderCall Primary symbol; warn;
                  ProviderCall Fallback symbol])
            | inr fallbackError =>
                (inr (Errors.new_AppError
                        ("Failed to get price for " ++ symbol
                         ++ " from any provider") 500),
                 pc1,
                 [ProviderCall Primary symbol; warn;
                  ProviderCall Fallback symbol;
                  LogError ("Fallback provider also failed for " ++ symbol
                            ++ " price: " ++ Errors.message fallbackError)])
            end
        | None =>
            (inr error, pc1, [ProviderCall Primary symbol; warn])
        end
    end.

End MarketDataService.

(* ------------------------------------------------------------------ *)
(** ** Predicates used in the statements *)

Module Spec.
Import Cache.

(** [expiresAt > createdAt] for one entry. *)
Definition entry_ok (e : entry) : Prop := timestamp e < expiry e.

Definition store_ok (s : JsMap.t entry) : Prop :=
  Forall (fun ke => entry_ok (snd ke)) s.

(** A [set] call whose effective TTL (the argument, or the cache default
    [default_ttl] when the argument is [undefined] or [0]) is positive
    and whose clock does not run backwards between the reading stored as
    [timestamp] and the one used for [expiry]. Other calls are not
    constrained. *)
Definition positive_ttl (default_ttl : Z) (op : call) : Prop :=
  match op with
  | CallSet _ _ ttl_arg _ now_stamp now_exp =>
      now_stamp <= now_exp /\ 0 < Js.or_default ttl_arg default_ttl
  | _ => True
  end.

(** No call of the sequence is a [set] on [key]: the entry of [key] is
    not replaced. *)
Definition no_set_on (key : string) (ops : list call) : Prop :=
  Forall (fun op => match op with
                    | CallSet k _ _ _ _ _ => k <> key
                    | _ => True
                    end) ops.

(** The key has an entry that has not expired at [now]. *)
Definition live (c : t) (key : string) (now : Z) : Prop :=
  exists e, JsMap.get key (store c) = Some e /\ now <= expiry e.

End Spec.

(* ------------------------------------------------------------------ *)
(** ** [src/utils/validators.js]: the validators of the market-data routes *)

Module Validators.

Definition is_alnum (c : ascii) : bool :=
  let n := nat_of_ascii c in
  ((48 <=? n)%nat && (n <=? 57)%nat)
  || ((65 <=? n)%nat && (n <=? 90)%nat)
  || ((97 <=? n)%nat && (n <=? 122)%nat).

(** [/^[A-Za-z0-9]{1,10}$/.test(s)]. *)
Definition symbol_pattern (s : string) : bool :=
  (1 <=? String.length s)%nat && (String.length s <=? 10)%nat
  && forallb is_alnum (list_ascii_of_string s).

(** [validateSymbol(symbol)]. *)
Definition validateSymbol (symbol : Js.value) : bool :=
  match symbol with
  | Js.Str s => if negb (Js.truthy symbol) then false else symbol_pattern s
  | _ => false
  end.

Definition validTimeframes : list string := ["1d"; "7d"; "30d"; "90d"; "1y"].

(** [validateTimeframe(timeframe)]. *)
Definition validateTimeframe (timeframe : Js.value) : bool :=
  match timeframe with
  | Js.Str s =>
      if negb (Js.truthy timeframe) then false
      else existsb (String.eqb s) validTimeframes
  | _ => false
  end.

End Validators.

(* ------------------------------------------------------------------ *)
(** ** The rest of [class MarketDataService] *)

Module MarketData.

Definition settled : Type := MarketDataService.settled.

(** A provider with the three methods the service calls. *)
Record provider : Type := mkProvider {
  getCurrentPrice : string -> settled;
  provider_getHistoricalPrices : string -> string -> settled;
  provider_getMarketData : string -> settled
}.

Record t : Type := mkService {
  primaryProvider : provider;
  fallbackProviderInstance : option provider
}.

(** The part of a service that [getPrice] uses. *)
Definition price_provider (p : provider) : MarketDataService.provider :=
  MarketDataService.mkProvider (getCurrentPrice p).

Definition price_service (svc : t) : MarketDataService.t :=
  MarketDataService.mkService
    (price_provider (primaryProvider svc))
    (option_map price_provider (fallbackProviderInstance svc)).

Inductive event : Type :=
| ProviderCall (r : MarketDataService.role) (method : string)
               (args : list string)
| LogDebug (line : string)
| LogWarn (line : string)
| LogError (line : string).

Definition is_provider_call (e : event) : bool :=
  match e with ProviderCall _ _ _ => true | _ => false end.

Definition provider_calls (tr : list event) : list event :=
  filter is_provider_call tr.

(** The three module-level caches. *)
Record caches : Type := mkCaches {
  priceCache : Cache.t;
  marketDataCache : Cache.t;
  historicalDataCache : Cache.t
}.

Definition initial_caches : caches :=
  {| priceCache := MarketDataService.priceCache;
     marketDataCache :=
       Cache.new (Cache.mkOptions (Some (15 * 60 * 1000)) (Some 50));
     historicalDataCache :=
       Cache.new (Cache.mkOptions (Some (60 * 60 * 1000)) (Some 30)) |}.

Definition historicalKey (symbol timeframe : string) : string :=
  "historical:" ++ Js.toLowerCase symbol ++ ":" ++ timeframe.

Definition marketDataKey (symbol : string) : string :=
  "marketData:" ++ Js.toLowerCase symbol.

(** [async getHistoricalPrices(symbol, timeframe = '30d')], run to
    completion on the state [hc] of [historicalDataCache]; [None] is an
    omitted [timeframe]. *)
Definition getHistoricalPrices (svc : t) (hc : Cache.t) (symbol : string)
    (timeframe_arg : option string) (clk : MarketDataService.clock)
  : settled * Cache.t * list event :=
  let timeframe :=
    match timeframe_arg with Some tf => tf | None => "30d" end in
  let key := historicalKey symbol timeframe in
  let '(cachedData, hc1) :=
    Cache.get hc key (MarketDataService.at_get clk) in
  if Js.truthy cachedData then
    (inl cachedData, hc1,
     [LogDebug ("Using cached historical data for " ++ symbol ++ " ("
                ++ timeframe ++ ")")])
  else
    let store_data data :=
      snd (Cache.set hc1 key data None
             (MarketDataService.at_scan clk)
             (MarketDataService.at_stamp clk)
             (MarketDataService.at_exp clk)) in
    let call r :=
      ProviderCall r "getHistoricalPrices" [symbol; timeframe] in
    match provider_getHistoricalPrices (primaryProvider svc)
            symbol timeframe with
    | inl data =>
        (inl data, store_data data, [call MarketDataService.Primary])
    | inr error =>
        let warn :=
          LogWarn ("Primary provider failed for " ++ symbol
                   ++ " historical data: " ++ Errors.message error) in
        match fallbackProviderInstance svc with
        | Some fallback =>
            match provider_getHistoricalPrices fallback
                    symbol timeframe with
            | inl data =>
                (inl data, store_data data,
                 [call MarketDataService.Primary; warn;
                  call MarketDataService.Fallback])
            | inr fallbackError =>
                (inr (Errors.new_AppError
                        ("Failed to get historical data for " ++ symbol
                         ++ " from any provider") 500),
                 hc1,
                 [call MarketDataService.Primary; warn;
                  call MarketDataService.Fallback;
                  LogError ("Fallback provider also failed for " ++ symbol
                            ++ " historical data: "
                            ++ Errors.message fallbackError)])
            end
        | None =>
            (inr error, hc1, [call MarketDataService.Primary; warn])
        end
    end.

(** [async getMarketData(symbol)], run to completion on the state [mc]
    of [marketDataCache]. *)
Definition getMarketData (svc : t) (mc : Cache.t) (symbol : string)
    (clk : MarketDataService.clock)
  : settled * Cache.t * list event :=
  let key := marketDataKey symbol in
  let '(cachedData, mc1) :=
    Cache.get mc key (MarketDataService.at_get clk) in
  if Js.truthy cachedData then
    (inl cachedData, mc1,
     [LogDebug ("Using cached market data for " ++ symbol)])
  else
    let store_data data :=
      snd (Cache.set mc1 key data None
             (MarketDataService.at_scan clk)
             (MarketDataService.at_stamp clk)
             (MarketDataService.at_exp clk)) in
    let call r := ProviderCall r "getMarketData" [symbol] in
    match provider_getMarketData (primaryProvider svc) symbol with
    | inl data =>
        (inl data, store_data data, [call MarketDataService.Primary])
    | inr error =>
        let warn :=
          LogWarn ("Primary provider failed for " ++ symbol
                   ++ " market data: " ++ Errors.message error) in
        match fallbackProviderInstance svc with
        | Some fallback =>
            match provider_getMarketData fallback symbol with
            | inl data =>
                (inl data, store_data data,
                 [call MarketDataService.Primary; warn;
                  call MarketDataService.Fallback])
            | inr fallbackError =>
                (inr (Errors.new_AppError
                        ("Failed to get market data for " ++ symbol
                         ++ " from any provider") 500),
                 mc1,
                 [call MarketDataService.Primary; warn;
                  call MarketDataService.Fallback;
                  LogError ("Fallback provider also failed for " ++ symbol
                            ++ " market data: "
                            ++ Errors.message fallbackError)])
            end
        | None =>
            (inr error, mc1, [call MarketDataService.Primary; warn])
        end
    end.

(** The timeframes whose historical entries [invalidateCache] deletes. *)
Definition invalidated_timeframes : list string :=
  ["1d"; "7d"; "30d"; "90d"; "1y"].

(** [invalidateCache(symbol)]. *)
Definition invalidateCache (cs : caches) (symbol : string)
  : caches * list event :=
  let symbolLower := Js.toLowerCase symbol in
  let pc := snd (Cache.del (priceCache cs) ("price:" ++ symbolLower)) in
  let mc :=
    snd (Cache.del (marketDataCache cs) ("marketData:" ++ symbolLower)) in
  let hc :=
    fold_left
      (fun c timeframe =>
         snd (Cache.del c ("historical:" ++ symbolLower ++ ":" ++ timeframe)))
      invalidated_timeframes (historicalDataCache cs) in
  ({| priceCache := pc; marketDataCache := mc; historicalDataCache := hc |},
   [LogDebug ("Cache invalidated for " ++ symbol)]).

(** [clearAllCaches()]. *)
Definition clearAllCaches (cs : caches) : caches * list event :=
  ({| priceCache := Cache.clear (priceCache cs);
      marketDataCache := Cache.clear (marketDataCache cs);
      historicalDataCache := Cache.clear (historicalDataCache cs) |},
   [LogDebug "All market data caches cleared"]).

End MarketData.

(* ------------------------------------------------------------------ *)
(** ** The timeframe tables of the mock market-data service
       (second module of [src/services/marketData/index.js]) *)

Module Timeframes.

Record details : Type := mkDetails {
  intervals : Z;
  hoursPerInterval : Q
}.

(** [getTimeframeDetails(timeframe)]; the quotients are exact. *)
Definition getTimeframeDetails (timeframe : string) : details :=
  if String.eqb timeframe "5m" then mkDetails 100 (5 / 60)
  else if String.eqb timeframe "15m" then mkDetails 100 (15 / 60)
  else if String.eqb timeframe "30m" then mkDetails 100 (30 / 60)
  else if String.eqb timeframe "1h" then mkDetails 100 1
  else if String.eqb timeframe "4h" then mkDetails 100 4
  else if String.eqb timeframe "1d" then mkDetails 100 24
  else if String.eqb timeframe "1w" then mkDetails 100 (24 * 7)
  else if String.eqb timeframe "1M" then mkDetails 100 (24 * 30)
  else mkDetails 100 24.

(** [getTimeframeHours(timeframe)]. *)
Definition getTimeframeHours (timeframe : string) : Z :=
  if String.eqb timeframe "1h" then 1
  else if String.eqb timeframe "4h" then 4
  else if String.eqb timeframe "1d" then 24
  else if String.eqb timeframe "1w" then 24 * 7
  else if String.eqb timeframe "1m" then 24 * 30
  else 1.

End Timeframes.

(* ------------------------------------------------------------------ *)
(** ** Further predicates used in the statements *)

Module Trace.
Import Cache.

Definition is_set (op : call) : bool :=
  match op with CallSet _ _ _ _ _ _ => true | _ => false end.

Definition is_get (op : call) : bool :=
  match op with CallGet _ _ => true | _ => false end.

(** A sequence of calls in which every [set] uses a non-empty key and
    reads its clock strictly after the [timestamp] of every earlier [set]
    ([last] bounds the timestamps stored so far), without running
    backwards between its scan and its [timestamp] readings. *)
Fixpoint clock_advances (last : Z) (ops : list call) : Prop :=
  match ops with
  | [] => True
  | CallSet key _ _ now_scan now_stamp _ :: rest =>
      key <> ""%string /\ last < now_scan /\ now_scan <= now_stamp /\
      clock_advances now_stamp rest
  | _ :: rest => clock_advances last rest
  end.

(** Within capacity, no empty key, and every stored timestamp at most
    [last]. *)
Definition within (c : t) (last : Z) : Prop :=
  Z.of_nat (JsMap.size (store c)) <= max c /\
  Forall (fun ke => fst ke <> ""%string /\ timestamp (snd ke) <= last)
         (store c).

(** A sequence of [getPrice] calls, each with its service, symbol and
    clock readings, threaded through the state of [priceCache]. *)
Definition price_call : Type :=
  (MarketDataService.t * string * MarketDataService.clock)%type.

Definition price_step (pc : Cache.t) (q : price_call) : Cache.t :=
  let '(svc, symbol, clk) := q in
  snd (fst (MarketDataService.getPrice svc pc symbol clk)).

Definition price_run (pc : Cache.t) (calls : list price_call) : Cache.t :=
  fold_left price_step calls pc.

(** Every [getPrice] of the sequence would read the clock of its [set]
    strictly after the [timestamp] reading of the call before it
    ([last] for the first one). *)
Fixpoint price_clock_advances (last : Z) (calls : list price_call) : Prop :=
  match calls with
  | [] => True
  | (_, _, clk) :: rest =>
      last < MarketDataService.at_scan clk /\
      MarketDataService.at_scan clk <= MarketDataService.at_stamp clk /\
      price_clock_advances (MarketDataService.at_stamp clk) rest
  end.

End Trace.

(* ------------------------------------------------------------------ *)
(** ** [src/middleware/errorHandler.js] and the price route *)

Module ErrorHandler.

(** The properties of a thrown error object that the handler reads. *)
Record error_object : Type := mkErrorObject {
  name : string;
  message : string;
  statusCode : Js.value;
  code : Js.value;
  details : Js.value;
  stack : Js.value
}.

(** The objects that [new AppError(...)] and [new Error(...)] create:
    neither class sets [name], so it is ["Error"]; [stack_text] is the
    stack trace captured at construction. *)
Definition of_error (e : Errors.error) (stack_text : string) : error_object :=
  match e with
  | Errors.AppError m s c =>
      mkErrorObject "Error" m (Js.Number (Js.of_Z s)) (Js.Str c)
                    Js.Undefined (Js.Str stack_text)
  | Errors.Error m =>
      mkErrorObject "Error" m Js.Undefined Js.Undefined
                    Js.Undefined (Js.Str stack_text)
  end.

(** [a || b] on values. *)
Definition or_value (a b : Js.value) : Js.value :=
  if Js.truthy a then a else b.

(** [v === z] for an integer literal [z]. *)
Definition is_number (v : Js.value) (z : Z) : bool :=
  match v with
  | Js.Number (Js.Num q) => Qeq_bool q (inject_Z z)
  | _ => false
  end.

(** The body of the response: [{ success: false, error: {...} }]. *)
Record error_response : Type := mkErrorResponse {
  status : Js.value;
  error_message : string;
  error_code : Js.value;
  error_status : Js.value;
  error_details : Js.value;
  error_stack : Js.value
}.

(** [errorHandler(err, req, res, next)]: the status and the error body
    it sends; [development] tells whether
    [process.env.NODE_ENV === 'development']. The line it logs before
    answering is not part of the result. *)
Definition errorHandler (err : error_object) (development : bool)
  : error_response :=
  let statusCode := or_value (statusCode err) (Js.Number (Js.of_Z 500)) in
  let message :=
    if Js.truthy (Js.Str (message err)) then message err
    else "Internal Server Error" in
  let errorCode := or_value (code err) (Js.Str "SERVER_ERROR") in
  let details := or_value (details err) Js.Undefined in
  let stack := if development then stack err else Js.Undefined in
  let '(statusCode, errorCode, message) :=
    if String.eqb (name err) "ValidationError" then
      (Js.Number (Js.of_Z 400), Js.Str "VALIDATION_ERROR", message)
    else if String.eqb (name err) "SyntaxError"
            && Js.includes (ErrorHandler.message err) "JSON" then
      (Js.Number (Js.of_Z 400), Js.Str "INVALID_JSON",
       "Invalid JSON in request body")
    else if String.eqb (name err) "MongoError"
            && is_number (code err) 11000 then
      (Js.Number (Js.of_Z 409), Js.Str "DUPLICATE_ENTITY",
       "Entity already exists")
    else (statusCode, errorCode, message) in
  {| status := statusCode;
     error_message := message;
     error_code := errorCode;
     error_status := statusCode;
     error_details := details;
     error_stack := stack |}.

(** What the handler of [GET /price/:symbol] ends with: the JSON body
    [{ success: true, data: { symbol, price, timestamp } }], or an error
    that [asyncHandler] forwards to the error middleware. *)
Inductive reply : Type :=
| Json (symbol : string) (price : Js.value) (timestamp : Z)
| Forwarded (e : Errors.error).

(** The handler of [GET /price/:symbol]; [now] is the reading of
    [Date.now()] for the body. *)
Definition price_route (svc : MarketDataService.t) (pc : Cache.t)
    (symbol : string) (clk : MarketDataService.clock) (now : Z)
  : reply * Cache.t * list MarketDataService.event :=
  if negb (Validators.validateSymbol (Js.Str symbol)) then
    (Forwarded (Errors.new_AppError "Invalid symbol" 400), pc, [])
  else
    let '(r, pc', tr) := MarketDataService.getPrice svc pc symbol clk in
    match r with
    | inl price => (Json symbol price now, pc', tr)
    | inr e => (Forwarded e, pc', tr)
    end.

End ErrorHandler.

(* ------------------------------------------------------------------ *)
(** * Properties *)

(** ** Facts about the [Map] model *)

Module JsMapFacts.
Section Facts.

Context {V : Type}.
Implicit Types (m : JsMap.t V) (k : string) (v : V).

Lemma get_set_same k v m : JsMap.get k (JsMap.set k v m) = Some v.
Proof.
  induction m as [|[k' v'] r IH]; simpl.
  - now rewrite String.eqb_refl.
  - destruct (String.eqb k k') eqn:E; simpl.
    + now rewrite String.eqb_refl.
    + now rewrite E.
Qed.

Lemma get_set_other k k' v m :
  k <> k' -> JsMap.get k' (JsMap.set k v m) = JsMap.get k' m.
Proof.
  intros Hne. apply not_eq_sym in Hne. apply String.eqb_neq in Hne.
  induction m as [|[k0 v0] r IH]; simpl.
  - now rewrite Hne.
  - destruct (String.eqb k k0) eqn:E; simpl.
    + apply String.eqb_eq in E. subst k0. now rewrite Hne.
    + destruct (String.eqb k' k0); [reflexivity | exact IH].
Qed.

Lemma get_remove_other k k' m :
  k <> k' -> JsMap.get k' (JsMap.remove k m) = JsMap.get k' m.
Proof.
  intros Hne. apply not_eq_sym in Hne. apply String.eqb_neq in Hne.
  induction m as [|[k0 v0] r IH]; simpl; [reflexivity|].
  destruct (String.eqb k k0) eqn:E; simpl.
  - apply String.eqb_eq in E. subst k0. now rewrite Hne.
  - destruct (String.eqb k' k0); [reflexivity | exact IH].
Qed.

Lemma get_None_iff k m : JsMap.get k m = None <-> ~ In k (JsMap.keys m).
Proof.
  induction m as [|[k' v'] r IH]; simpl.
  - tauto.
  - destruct (String.eqb k k') eqn:E.
    + apply String.eqb_eq in E. subst. split; [discriminate | tauto].
    + apply String.eqb_neq in E. rewrite IH. split.
      * intros H [H1 | H1]; [congruence | tauto].
      * tauto.
Qed.

Lemma has_true_iff k m : JsMap.has k m = true <-> In k (JsMap.keys m).
Proof.
  unfold JsMap.has. destruct (JsMap.get k m) eqn:E.
  - split; [intros _ | reflexivity].
    destruct (in_dec string_dec k (JsMap.keys m)) as [H | H]; [exact H|].
    apply get_None_iff in H. congruence.
  - split; [discriminate|]. intros H. apply get_None_iff in E. tauto.
Qed.

Lemma has_false_iff k m : JsMap.has k m = false <-> JsMap.get k m = None.
Proof.
  unfold JsMap.has. destruct (JsMap.get k m); split; congruence.
Qed.

Lemma keys_remove_incl k k' m :
  In k' (JsMap.keys (JsMap.remove k m)) -> In k' (JsMap.keys m).
Proof.
  induction m as [|[k0 v0] r IH]; simpl; [tauto|].
  destruct (String.eqb k k0); simpl; tauto.
Qed.

Lemma wf_remove k m : JsMap.wf m -> JsMap.wf (JsMap.remove k m).
Proof.
  unfold JsMap.wf. induction m as [|[k0 v0] r IH]; simpl; intros H.
  - constructor.
  - inversion H as [|? ? Hn Hr]; subst.
    destruct (String.eqb k k0); simpl; [exact Hr|].
    constructor; [|apply IH; exact Hr].
    intros Hin. apply Hn. eapply keys_remove_incl. exact Hin.
Qed.

Lemma get_remove_same k m :
  JsMap.wf m -> JsMap.get k (JsMap.remove k m) = None.
Proof.
  unfold JsMap.wf. induction m as [|[k0 v0] r IH]; simpl; intros H.
  - reflexivity.
  - inversion H as [|? ? Hn Hr]; subst.
    destruct (String.eqb k k0) eqn:E; simpl.
    + apply String.eqb_eq in E. subst k0. now apply get_None_iff.
    + rewrite E. apply IH. exact Hr.
Qed.

Lemma keys_set k v m :
  forall k', In k' (JsMap.keys (JsMap.set k v m)) <->
             k' = k \/ In k' (JsMap.keys m).
Proof.
  intros k'. induction m as [|[k0 v0] r IH]; simpl.
  - intuition.
  - destruct (String.eqb k k0) eqn:E; simpl.
    + apply String.eqb_eq in E. subst k0. intuition.
    + rewrite IH. intuition.
Qed.

Lemma wf_set k v m : JsMap.wf m -> JsMap.wf (JsMap.set k v m).
Proof.
  unfold JsMap.wf. induction m as [|[k0 v0] r IH]; simpl; intros H.
  - constructor; [simpl; tauto | constructor].
  - inversion H as [|? ? Hn Hr]; subst.
    destruct (String.eqb k k0) eqn:E; simpl.
    + apply String.eqb_eq in E. subst k0. constructor; assumption.
    + apply String.eqb_neq in E.
      constructor; [|apply IH; exact Hr].
      intros Hin. apply keys_set in Hin. destruct Hin; [congruence | tauto].
Qed.

Lemma wf_filter (f : string * V -> bool) m :
  JsMap.wf m -> JsMap.wf (filter f m).
Proof.
  unfold JsMap.wf. induction m as [|[k0 v0] r IH]; simpl; intros H.
  - constructor.
  - inversion H as [|? ? Hn Hr]; subst.
    destruct (f (k0, v0)); simpl; [|apply IH; exact Hr].
    constructor; [|apply IH; exact Hr].
    intros Hin. apply Hn. unfold JsMap.keys in *.
    apply in_map_iff in Hin. destruct Hin as [x [Hx Hin]].
    apply filter_In in Hin. apply in_map_iff. exists x. tauto.
Qed.

Lemma size_set k v m :
  JsMap.size (JsMap.set k v m) =
  if JsMap.has k m then JsMap.size m else S (JsMap.size m).
Proof.
  unfold JsMap.has, JsMap.size.
  induction m as [|[k0 v0] r IH]; simpl; [reflexivity|].
  destruct (String.eqb k k0); simpl; [reflexivity|].
  rewrite IH. destruct (JsMap.get k r); reflexivity.
Qed.

Lemma size_remove k m :
  JsMap.has k m = true -> S (JsMap.size (JsMap.remove k m)) = JsMap.size m.
Proof.
  unfold JsMap.has, JsMap.size.
  induction m as [|[k0 v0] r IH]; simpl; [discriminate|].
  destruct (String.eqb k k0); simpl; [reflexivity|].
  intros H. now rewrite IH.
Qed.

Lemma size_remove_absent k m :
  JsMap.has k m = false -> JsMap.remove k m = m.
Proof.
  unfold JsMap.has.
  induction m as [|[k0 v0] r IH]; simpl; [reflexivity|].
  destruct (String.eqb k k0); simpl; [discriminate|].
  intros H. now rewrite IH.
Qed.

End Facts.
End JsMapFacts.

(** ** Facts about the cache methods *)

Module CacheFacts.
Import Cache.

Lemma oldest_in_store s : forall acc k,
  fst (fold_left oldest_step s acc) = Some k ->
  fst acc = Some k \/ In k (JsMap.keys s).
Proof.
  induction s as [|[k0 e0] r IH]; simpl; intros acc k H.
  - now left.
  - apply IH in H. destruct H as [H | H]; [|tauto].
    unfold oldest_step in H. simpl in H.
    destruct (timestamp e0 <? snd acc); simpl in H.
    + right. left. congruence.
    + now left.
Qed.

Lemma find_oldest_in_store s now k :
  fst (find_oldest s now) = Some k -> JsMap.has k s = true.
Proof.
  intros H. apply oldest_in_store in H. simpl in H.
  destruct H as [H | H]; [discriminate|].
  now apply JsMapFacts.has_true_iff.
Qed.

(** When no stored timestamp is below the clock reading, the scan
    finds nothing. *)
Lemma find_oldest_none s : forall acc,
  Forall (fun ke => snd acc <= timestamp (snd ke)) s ->
  fold_left oldest_step s acc = acc.
Proof.
  induction s as [|[k0 e0] r IH]; simpl; intros acc H; [reflexivity|].
  inversion H as [|? ? H0 Hr]; subst. simpl in H0.
  unfold oldest_step at 2. simpl.
  destruct (Z.ltb_spec (timestamp e0) (snd acc)); [lia|].
  apply IH. exact Hr.
Qed.

(** When some stored timestamp is below the clock reading, the scan
    finds a key. *)
Lemma find_oldest_some s : forall acc,
  (fst acc <> None \/
   Exists (fun ke => timestamp (snd ke) < snd acc) s) ->
  fst (fold_left oldest_step s acc) <> None.
Proof.
  induction s as [|[k0 e0] r IH]; simpl; intros acc H.
  - destruct H as [H | H]; [exact H | inversion H].
  - apply IH. unfold oldest_step. simpl.
    destruct (Z.ltb_spec (timestamp e0) (snd acc)); simpl.
    + left. discriminate.
    + destruct H as [H | H]; [now left|].
      right. inversion H as [? ? Hhd | ? ? Htl]; subst; simpl in *; [lia|].
      exact Htl.
Qed.

Lemma evict_cases s now :
  evict s now = s \/
  exists k, fst (find_oldest s now) = Some k /\ k <> ""%string /\
            evict s now = JsMap.remove k s.
Proof.
  unfold evict. destruct (fst (find_oldest s now)) as [k|] eqn:E; simpl.
  - destruct (String.eqb k "") eqn:Ek; simpl; [now left|].
    right. exists k. apply String.eqb_neq in Ek. auto.
  - now left.
Qed.

Lemma evict_wf s now : JsMap.wf s -> JsMap.wf (evict s now).
Proof.
  intros H. destruct (evict_cases s now) as [-> | [k [_ [_ ->]]]].
  - exact H.
  - now apply JsMapFacts.wf_remove.
Qed.

Lemma store_set c key v a t0 t1 t2 :
  store (snd (set c key v a t0 t1 t2)) =
  JsMap.set key (mkEntry v t1 (t2 + Js.or_default a (ttl c)))
    (if Z.of_nat (JsMap.size (store c)) >=? max c
     then evict (store c) t0 else store c).
Proof. reflexivity. Qed.

Lemma set_wf c key v a t0 t1 t2 :
  JsMap.wf (store c) -> JsMap.wf (store (snd (set c key v a t0 t1 t2))).
Proof.
  intros H. rewrite store_set. apply JsMapFacts.wf_set.
  destruct (Z.of_nat (JsMap.size (store c)) >=? max c);
    [now apply evict_wf | exact H].
Qed.

Lemma get_wf c key now :
  JsMap.wf (store c) -> JsMap.wf (store (snd (get c key now))).
Proof.
  intros H. unfold get. destruct (JsMap.get key (store c)); simpl; [|exact H].
  destruct (now >? expiry e); simpl; [|exact H].
  now apply JsMapFacts.wf_remove.
Qed.

Lemma exec_wf c op : JsMap.wf (store c) -> JsMap.wf (store (exec c op)).
Proof.
  intros H. destruct op; simpl.
  - now apply set_wf.
  - now apply get_wf.
  - unfold has. destruct (JsMap.get key (store c)); simpl; [|exact H].
    destruct (now >? expiry e); simpl; [|exact H].
    now apply JsMapFacts.wf_remove.
  - unfold del, JsMap.delete. destruct (JsMap.has key (store c)); simpl;
      now apply JsMapFacts.wf_remove.
  - constructor.
  - now apply JsMapFacts.wf_filter.
  - unfold prune.
    destruct (0 <? _)%nat; simpl; now apply JsMapFacts.wf_filter.
Qed.

(** Every cache obtained from the constructor by method calls holds a
    well-formed [Map]. *)
Lemma run_wf ops : forall c,
  JsMap.wf (store c) -> JsMap.wf (store (run c ops)).
Proof.
  induction ops as [|op ops IH]; simpl; intros c H; [exact H|].
  apply IH. now apply exec_wf.
Qed.

Lemma new_wf o : JsMap.wf (store (new o)).
Proof. constructor. Qed.

(** A lookup that misses (absent or expired) makes [get] answer
    [undefined]. *)
Lemma get_miss c key now :
  fst (has c key now) = false -> fst (get c key now) = Js.Undefined.
Proof.
  unfold has, get. destruct (JsMap.get key (store c)); simpl; [|reflexivity].
  destruct (now >? expiry e); simpl; [reflexivity | discriminate].
Qed.

(** After a lookup that misses, the key is not in the store. *)
Lemma get_miss_absent c key now :
  JsMap.wf (store c) ->
  fst (has c key now) = false ->
  JsMap.get key (store (snd (get c key now))) = None.
Proof.
  intros Hwf. unfold has, get.
  destruct (JsMap.get key (store c)) eqn:E; simpl; [|intros _; exact E].
  destruct (now >? expiry e); simpl; [|discriminate].
  intros _. now apply JsMapFacts.get_remove_same.
Qed.

Lemma ttl_get c key now : ttl (snd (get c key now)) = ttl c.
Proof.
  unfold get. destruct (JsMap.get key (store c)); [|reflexivity].
  destruct (now >? expiry e); reflexivity.
Qed.

Lemma sets_get c key now :
  sets (stats (snd (get c key now))) = sets (stats c).
Proof.
  unfold get. destruct (JsMap.get key (store c)); [|reflexivity].
  destruct (now >? expiry e); reflexivity.
Qed.

End CacheFacts.

(** ** Facts about rounding and the division of counters *)

Module JsFacts.

Lemma round_half_even_spec sn sd :
  0 < sd -> 2 * Z.abs (Js.round_half_even sn sd * sd - sn) <= sd.
Proof.
  intros Hsd. unfold Js.round_half_even.
  pose proof (Z.div_mod sn sd ltac:(lia)) as Hdm.
  pose proof (Z.mod_pos_bound sn sd Hsd) as Hr.
  set (q := sn / sd) in *. set (r := sn mod sd) in *.
  assert (Hsn : sn = q * sd + r) by lia. clearbody q r.
  destruct (Z.ltb_spec (2 * r) sd); [nia|].
  destruct (Z.ltb_spec sd (2 * r)); [nia|].
  destruct (Z.even q); nia.
Qed.

Lemma round_half_even_bounds sn sd N :
  0 < sd -> 0 <= sn -> sn <= N * sd ->
  0 <= Js.round_half_even sn sd <= N.
Proof.
  intros Hsd Hsn HN. pose proof (round_half_even_spec sn sd Hsd) as H.
  set (m := Js.round_half_even sn sd) in *. clearbody m. nia.
Qed.

Lemma floor_log2_unit n d : 0 < n <= d -> Js.floor_log2 n d <= 0.
Proof.
  intros [Hn Hd]. unfold Js.floor_log2.
  pose proof (Z.log2_le_mono n d Hd) as Hl.
  destruct (Js.scale n d (Z.log2 n - Z.log2 d)) as [sn sd].
  destruct (sd <=? sn); lia.
Qed.

(** The double nearest to a fraction of the unit interval. *)
Lemma nearest_double_unit n d :
  0 < n <= d ->
  exists m e,
    Js.nearest_double_pos n d = (m, e) /\
    e <= -52 /\ 0 <= m <= 2 ^ (- e) /\
    2 * Z.abs (m * d - n * 2 ^ (- e)) <= d.
Proof.
  intros Hnd. unfold Js.nearest_double_pos.
  pose proof (floor_log2_unit n d Hnd) as Hf.
  set (e := Z.max (Js.floor_log2 n d - 52) (- 1074)).
  assert (He : e <= -52) by (unfold e; lia).
  unfold Js.scale. destruct (Z.leb_spec 0 e) as [Hge|Hlt]; [lia|].
  assert (HP : 0 < 2 ^ (- e)) by (apply Z.pow_pos_nonneg; lia).
  exists (Js.round_half_even (n * 2 ^ (- e)) d), e.
  split; [reflexivity|]. split; [exact He|]. split.
  - apply round_half_even_bounds; nia.
  - apply round_half_even_spec. lia.
Qed.

Lemma pow2_52_le e : e <= -52 -> 2 ^ 52 <= 2 ^ (- e).
Proof. intros H. apply Z.pow_le_mono_r; lia. Qed.

Lemma double_of_pos_unit (pn pd : positive) :
  (pn <= pd)%positive ->
  exists q,
    Js.double_of_pos (Zpos pn) (Zpos pd) = Some q /\
    (0 <= q)%Q /\ (q <= 1)%Q /\
    (Qabs (q - (Zpos pn # pd)) <= 1 # 2 ^ 53)%Q.
Proof.
  intros Hle.
  destruct (nearest_double_unit (Zpos pn) (Zpos pd) ltac:(lia))
    as [m [e [Hnd [He [Hm Herr]]]]].
  unfold Js.double_of_pos. rewrite Hnd.
  destruct (Z.leb_spec 0 e) as [Hge|Hlt]; [lia|]. cbn [andb].
  pose proof (pow2_52_le e He) as HP52.
  set (P := 2 ^ (- e)) in *.
  assert (HP : 0 < P) by lia.
  assert (Hpow : 2 ^ 52 = 4503599627370496) by reflexivity.
  rewrite Hpow in HP52. clear Hpow.
  destruct (Z.eqb_spec m 0) as [Hz|Hnz].
  - exists 0%Q. split; [reflexivity|]. split; [discriminate|].
    split; [discriminate|].
    apply Qabs_Qle_condition. subst m.
    unfold Qle, Qminus, Qplus, Qopp; simpl. clearbody P. split; nia.
  - exists (Js.dyadic m e). split; [reflexivity|].
    unfold Js.dyadic. destruct (Z.leb_spec 0 e); [lia|]. fold P.
    assert (HPp : Zpos (Z.to_pos P) = P) by (apply Z2Pos.id; lia).
    clearbody P.
    split; [unfold Qle; simpl; lia|].
    split; [unfold Qle; simpl; rewrite HPp; lia|].
    apply Qabs_Qle_condition.
    unfold Qle, Qminus, Qplus, Qopp; simpl.
    rewrite !Pos2Z.inj_mul, HPp. split; nia.
Qed.


Lemma dyadic_nonzero m e : m <> 0 -> Qeq_bool (Js.dyadic m e) 0 = false.
Proof.
  intros Hm. destruct (Qeq_bool (Js.dyadic m e) 0) eqn:E; [|reflexivity].
  exfalso. apply Qeq_bool_iff in E. unfold Js.dyadic in E.
  destruct (Z.leb_spec 0 e) as [Hge|Hlt]; unfold Qeq in E; simpl in E.
  - pose proof (Z.pow_pos_nonneg 2 e ltac:(lia) Hge). nia.
  - lia.
Qed.

Lemma double_of_pos_zero n d q :
  Js.double_of_pos n d = Some q -> Qeq_bool q 0 = true -> q = 0%Q.
Proof.
  unfold Js.double_of_pos. destruct (Js.nearest_double_pos n d) as [m e].
  destruct ((0 <=? e) && (2 ^ 1024 <=? m * 2 ^ e)); [discriminate|].
  destruct (Z.eqb_spec m 0) as [Hz|Hnz]; intros H; injection H as <-.
  - reflexivity.
  - intros E. rewrite (dyadic_nonzero m e Hnz) in E. discriminate.
Qed.

(** [x || 0] is [x] for every double [x]: rounding never gives [NaN]. *)
Lemma or_zero_double n d :
  Js.or_number (Js.double_of_fraction n d) (Js.Num 0) =
  Js.double_of_fraction n d.
Proof.
  unfold Js.double_of_fraction. destruct n as [|pn|pn]; [reflexivity| |].
  - destruct (Js.double_of_pos (Z.pos pn) (Z.pos d)) as [q|] eqn:E;
      [|reflexivity].
    unfold Js.or_number, Js.truthy_number.
    destruct (Qeq_bool q 0) eqn:Ez; [|reflexivity]. cbn [negb].
    now rewrite (double_of_pos_zero _ _ _ E Ez).
  - destruct (Js.double_of_pos (Z.pos pn) (Z.pos d)) as [q|] eqn:E;
      [|reflexivity].
    unfold Js.or_number, Js.truthy_number.
    destruct (Qeq_bool (- q) 0) eqn:Ez; [|reflexivity]. cbn [negb].
    assert (Ez' : Qeq_bool q 0 = true).
    { apply Qeq_bool_iff. apply Qeq_bool_iff in Ez.
      unfold Qeq in *. simpl in *. lia. }
    now rewrite (double_of_pos_zero _ _ _ E Ez').
Qed.

Lemma div_counters (h : Z) (p : positive) :
  Js.div (Js.of_Z h) (Js.of_Z (Zpos p)) = Js.double_of_fraction h p.
Proof.
  unfold Js.div, Js.of_Z.
  assert (Hnz : Qeq_bool (inject_Z (Z.pos p)) 0 = false) by reflexivity.
  rewrite Hnz. unfold Js.to_double, Qdiv, Qmult, Qinv, inject_Z.
  cbn [Qnum Qden]. now rewrite Z.mul_1_r.
Qed.

Lemma of_nat_pos n : (0 < n)%nat -> Z.of_nat n = Z.pos (Pos.of_nat n).
Proof.
  intros Hn. destruct n as [|n]; [lia|].
  rewrite <- Pos.of_nat_succ. reflexivity.
Qed.

(** The quotient of two counters with a non-zero denominator: the double
    nearest to the exact ratio, which lies within [2 ^ -53] of it when
    the ratio is in the unit interval. *)
Lemma div_unit (h t : nat) :
  (0 < t)%nat -> (h <= t)%nat ->
  Js.or_number (Js.div (Js.of_nat h) (Js.of_nat t)) (Js.of_Z 0) =
    Js.div (Js.of_nat h) (Js.of_nat t) /\
  exists q,
    Js.div (Js.of_nat h) (Js.of_nat t) = Js.Num q /\
    (0 <= q)%Q /\ (q <= 1)%Q /\
    (Qabs (q - (Z.of_nat h # Pos.of_nat t)) <= 1 # 2 ^ 53)%Q.
Proof.
  intros Ht Hle. unfold Js.of_nat.
  rewrite (of_nat_pos t Ht), div_counters.
  split; [apply or_zero_double|].
  destruct h as [|h].
  - exists 0%Q. split; [reflexivity|]. split; [discriminate|].
    split; [discriminate|]. simpl. discriminate.
  - rewrite (of_nat_pos (S h)) by lia.
    destruct (double_of_pos_unit (Pos.of_nat (S h)) (Pos.of_nat t))
      as [q [Hq Hrest]].
    { apply Pos2Nat.inj_le. rewrite !Nat2Pos.id by lia. exact Hle. }
    exists q. unfold Js.double_of_fraction. rewrite Hq. tauto.
Qed.

End JsFacts.

(* ------------------------------------------------------------------ *)
(** ** The cache: expiry, statistics and frame properties *)

Section CacheClaims.
Import Cache.

(** C4. For every key [k], value [v] and [ttl > 0]: after
    [set(k, v, ttl)], a [get(k)] at the time of the [set] (and at any
    time up to the expiry [now_exp + ttl]) returns [v]; once the clock
    has passed the expiry, [get(k)] returns [undefined] and removes the
    entry, and [has(k)] returns [false], whether it is asked instead of
    that [get] or after it. *)
Theorem set_get_expiry :
  forall (c : t) (k : string) (v : Js.value) (ttl : Z)
         (now_scan now_stamp now_exp : Z),
    JsMap.wf (store c) ->
    0 < ttl ->
    let c1 := snd (set c k v (Some ttl) now_scan now_stamp now_exp) in
    fst (get c1 k now_exp) = v /\
    (forall now, now <= now_exp + ttl -> fst (get c1 k now) = v) /\
    (forall now, now_exp + ttl < now ->
       fst (get c1 k now) = Js.Undefined /\
       JsMap.get k (store (snd (get c1 k now))) = None /\
       fst (has c1 k now) = false /\
       (forall now', fst (has (snd (get c1 k now)) k now') = false)).
Proof.
  intros c k v ttl0 t0 t1 t2 Hwf Hpos c1.
  assert (Hwf1 : JsMap.wf (store c1)) by now apply CacheFacts.set_wf.
  assert (Hget : JsMap.get k (store c1) = Some (mkEntry v t1 (t2 + ttl0))).
  { unfold c1. rewrite CacheFacts.store_set, JsMapFacts.get_set_same.
    unfold Js.or_default. destruct (Z.eqb_spec ttl0 0); [lia | reflexivity]. }
  assert (Hlive : forall now, now <= t2 + ttl0 -> fst (get c1 k now) = v).
  { intros now Hnow. unfold get. rewrite Hget. simpl.
    destruct (Z.gtb_spec now (t2 + ttl0)); [lia | reflexivity]. }
  split; [apply Hlive; lia|]. split; [exact Hlive|].
  intros now Hnow.
  assert (Hhas : fst (has c1 k now) = false).
  { unfold has. rewrite Hget. simpl.
    destruct (Z.gtb_spec now (t2 + ttl0)); [reflexivity | lia]. }
  assert (Habs : JsMap.get k (store (snd (get c1 k now))) = None)
    by now apply CacheFacts.get_miss_absent.
  repeat split.
  - now apply CacheFacts.get_miss.
  - exact Habs.
  - exact Hhas.
  - intros now'. unfold has at 1. now rewrite Habs.
Qed.

Lemma set_get_expiry_witness :
  let c1 := snd (set (new (mkOptions None None)) "BTC"
                     (Js.Number (Js.of_Z 50000)) (Some 60000) 0 0 0) in
  fst (get c1 "BTC" 0) = Js.Number (Js.of_Z 50000) /\
  fst (get c1 "BTC" 61000) = Js.Undefined /\
  fst (has c1 "BTC" 61000) = false.
Proof.
  pose proof (set_get_expiry (new (mkOptions None None)) "BTC"
                (Js.Number (Js.of_Z 50000)) 60000 0 0 0
                (CacheFacts.new_wf _) eq_refl) as H.
  cbv zeta in H. destruct H as [H0 [_ H2]].
  specialize (H2 61000 eq_refl). destruct H2 as [Hu [_ [Hh _]]].
  exact (conj H0 (conj Hu Hh)).
Defined.

(** C5. With [h] recorded hits and [m] recorded misses: if [h + m > 0]
    then [getStats().hitRate] is the value of the quotient [h / (h + m)]
    (the [|| 0] guard does not alter it), a finite number: the double
    nearest to the exact ratio, within [2 ^ -53] of it; if [h = m = 0]
    it is [0], not [NaN]. *)
Theorem getStats_hitRate :
  forall (c : t),
    let h := hits (stats c) in
    let m := misses (stats c) in
    ((0 < h + m)%nat ->
       hitRate (getStats c) = Js.div (Js.of_nat h) (Js.of_nat (h + m)) /\
       hitRate (getStats c) =
         Js.to_double (Z.of_nat h # Pos.of_nat (h + m)) /\
       exists q, hitRate (getStats c) = Js.Num q /\
                 (Qabs (q - (Z.of_nat h # Pos.of_nat (h + m)))
                  <= 1 # 2 ^ 53)%Q) /\
    (h = 0%nat -> m = 0%nat -> hitRate (getStats c) = Js.Num 0).
Proof.
  intros c h m. split.
  - intros Hpos. unfold getStats, hitRate. fold h m.
    destruct (JsFacts.div_unit h (h + m) Hpos ltac:(lia))
      as [Hor [q [Hq [_ [_ Herr]]]]].
    rewrite Hor. split; [reflexivity|]. split.
    + unfold Js.of_nat. rewrite (JsFacts.of_nat_pos (h + m) Hpos).
      apply JsFacts.div_counters.
    + exists q. split; [exact Hq | exact Herr].
  - intros Hh Hm. unfold getStats, hitRate. fold h m.
    rewrite Hh, Hm. reflexivity.
Qed.

(** A concrete value: one hit and two misses give the double nearest to
    one third, not one third. *)
Lemma hitRate_one_hit_two_misses :
  hitRate (getStats (mkCache [] 60000 1000 (mkStats 1 2 0 0))) =
  Js.Num (6004799503160661 # 18014398509481984).
Proof. vm_compute. reflexivity. Qed.

(** C8. [clear()] empties the store and leaves the [deletes] counter
    unchanged (the size added to it is read after the store was
    emptied, so it is zero), as well as [hits], [misses] and [sets]. *)
Theorem clear_frame :
  forall (c : t),
    store (clear c) = JsMap.empty /\
    size (getStats (clear c)) = 0%nat /\
    deletes (stats (clear c)) = deletes (stats c) /\
    hits (stats (clear c)) = hits (stats c) /\
    misses (stats (clear c)) = misses (stats c) /\
    sets (stats (clear c)) = sets (stats c).
Proof.
  intros c. unfold clear. simpl. rewrite Nat.add_0_r. repeat split.
Qed.

(** C10. Every [get(key)] adds exactly one to exactly one of [hits] and
    [misses], leaves [sets] and [deletes] (and the configuration) as
    they were, and leaves the store as it was except that it may delete
    the entry of [key] itself, which it only does when that entry has
    expired. *)
Theorem get_frame :
  forall (c : t) (key : string) (now : Z),
    let c' := snd (get c key now) in
    ((hits (stats c') = S (hits (stats c)) /\
      misses (stats c') = misses (stats c)) \/
     (hits (stats c') = hits (stats c) /\
      misses (stats c') = S (misses (stats c)))) /\
    sets (stats c') = sets (stats c) /\
    deletes (stats c') = deletes (stats c) /\
    ttl c' = ttl c /\ max c' = max c /\
    (store c' = store c \/
     (store c' = JsMap.remove key (store c) /\
      exists e, JsMap.get key (store c) = Some e /\ expiry e < now)) /\
    (forall k, k <> key -> JsMap.get k (store c') = JsMap.get k (store c)).
Proof.
  intros c key now c'. unfold c', get.
  destruct (JsMap.get key (store c)) as [e|] eqn:E; simpl.
  - destruct (Z.gtb_spec now (expiry e)); simpl.
    + repeat split; auto.
      * right. split; [reflexivity|]. exists e. split; [reflexivity | lia].
      * intros k Hk. apply JsMapFacts.get_remove_other. congruence.
    + repeat split; auto.
  - repeat split; auto.
Qed.

End CacheClaims.

(* ------------------------------------------------------------------ *)
(** ** The cache: capacity and eviction *)

Section EvictionClaims.
Import Cache.

(** C1, evaluated on the code. A cache built with [max: 1] receives
    two [set] calls with different keys while [Date.now()] keeps
    returning the same millisecond. The scan of the second call compares
    the stored timestamp with the current time by [<], finds no entry
    that is strictly older, evicts nothing, and the store ends with two
    entries. *)
Theorem set_same_millisecond_exceeds_max :
  let c0 := new (mkOptions None (Some 1)) in
  let c1 := snd (set c0 "a" (Js.Number (Js.of_Z 1)) None 1000 1000 1000) in
  let c2 := snd (set c1 "b" (Js.Number (Js.of_Z 2)) None 1000 1000 1000) in
  max c2 = 1 /\
  size (getStats c1) = 1%nat /\
  fst (find_oldest (store c1) 1000) = None /\
  size (getStats c2) = 2%nat /\
  keys c2 = ["a"; "b"]%string.
Proof. repeat split. Qed.

(** What the eviction achieves when it does find a victim: if the store
    is within its capacity, the capacity is at least one, the empty
    string is not a key and some entry is strictly older than the clock
    reading of the scan, then the store is within its capacity after
    [set]. *)
Lemma set_size_bound_when_older :
  forall (c : t) (key : string) (v : Js.value) (ttl_arg : option Z)
         (now_scan now_stamp now_exp : Z),
    1 <= max c ->
    Z.of_nat (JsMap.size (store c)) <= max c ->
    ~ In ""%string (JsMap.keys (store c)) ->
    Exists (fun ke => timestamp (snd ke) < now_scan) (store c) ->
    Z.of_nat (JsMap.size
                (store (snd (set c key v ttl_arg now_scan now_stamp now_exp))))
    <= max c.
Proof.
  intros c key v a t0 t1 t2 Hmax Hsize Hempty Hold.
  rewrite CacheFacts.store_set, JsMapFacts.size_set.
  destruct (Z.geb_spec (Z.of_nat (JsMap.size (store c))) (max c)) as [Hfull|Hroom].
  - assert (Hsome : fst (find_oldest (store c) t0) <> None).
    { apply CacheFacts.find_oldest_some. right. exact Hold. }
    destruct (fst (find_oldest (store c) t0)) as [k|] eqn:E; [|congruence].
    pose proof (CacheFacts.find_oldest_in_store _ _ _ E) as Hin.
    assert (Hk : k <> ""%string).
    { intros ->. apply Hempty. now apply JsMapFacts.has_true_iff. }
    assert (Hev : evict (store c) t0 = JsMap.remove k (store c)).
    { unfold evict. rewrite E. simpl.
      apply String.eqb_neq in Hk. now rewrite Hk. }
    rewrite Hev. pose proof (JsMapFacts.size_remove _ _ Hin) as Hs.
    destruct (JsMap.has key (JsMap.remove k (store c))); lia.
  - destruct (JsMap.has key (store c)); lia.
Qed.

(** C9. On a cache at capacity ([size >= max]), [set] on a key that is
    already present runs the eviction before the overwrite: whenever
    the scan selects another key [k'] (non-empty, so that the test
    [if (oldestKey)] passes), that entry is removed, the overwritten key
    stays, and the store is one entry smaller than before. *)
Theorem set_present_key_at_capacity_evicts :
  forall (c : t) (key k' : string) (v : Js.value) (ttl_arg : option Z)
         (now_scan now_stamp now_exp : Z),
    JsMap.wf (store c) ->
    max c <= Z.of_nat (JsMap.size (store c)) ->
    JsMap.has key (store c) = true ->
    fst (find_oldest (store c) now_scan) = Some k' ->
    k' <> ""%string ->
    k' <> key ->
    let c' := snd (set c key v ttl_arg now_scan now_stamp now_exp) in
    JsMap.has k' (store c) = true /\
    JsMap.has k' (store c') = false /\
    JsMap.has key (store c') = true /\
    S (size (getStats c')) = size (getStats c).
Proof.
  intros c key k' v a t0 t1 t2 Hwf Hfull Hkey Hold Hne Hdiff c'.
  pose proof (CacheFacts.find_oldest_in_store _ _ _ Hold) as Hin.
  assert (Hst : store c' =
                JsMap.set key (mkEntry v t1 (t2 + Js.or_default a (ttl c)))
                  (JsMap.remove k' (store c))).
  { unfold c'. rewrite CacheFacts.store_set.
    destruct (Z.geb_spec (Z.of_nat (JsMap.size (store c))) (max c)); [|lia].
    unfold evict. rewrite Hold. simpl.
    apply String.eqb_neq in Hne. now rewrite Hne. }
  assert (Hkeep : JsMap.has key (JsMap.remove k' (store c)) = true).
  { unfold JsMap.has in *.
    now rewrite JsMapFacts.get_remove_other by exact Hdiff. }
  split; [exact Hin|]. split; [|split].
  - apply JsMapFacts.has_false_iff. rewrite Hst.
    rewrite JsMapFacts.get_set_other by congruence.
    now apply JsMapFacts.get_remove_same.
  - unfold JsMap.has. rewrite Hst. now rewrite JsMapFacts.get_set_same.
  - change (S (JsMap.size (store c')) = JsMap.size (store c)).
    rewrite Hst, JsMapFacts.size_set, Hkeep.
    now apply JsMapFacts.size_remove.
Qed.

Lemma set_present_key_at_capacity_evicts_witness :
  let c0 := new (mkOptions None (Some 2)) in
  let c1 := snd (set c0 "a" (Js.Number (Js.of_Z 1)) None 1 1 1) in
  let c2 := snd (set c1 "b" (Js.Number (Js.of_Z 2)) None 2 2 2) in
  let c3 := snd (set c2 "b" (Js.Number (Js.of_Z 3)) None 10 10 10) in
  keys c2 = ["a"; "b"]%string /\ keys c3 = ["b"]%string /\
  JsMap.has "a" (store c3) = false /\
  S (size (getStats c3)) = size (getStats c2).
Proof.
  cbv zeta.
  set (c2 := snd (set (snd (set (new (mkOptions None (Some 2))) "a"
                                (Js.Number (Js.of_Z 1)) None 1 1 1))
                      "b" (Js.Number (Js.of_Z 2)) None 2 2 2)).
  assert (Hwf : JsMap.wf (store c2)).
  { apply CacheFacts.set_wf, CacheFacts.set_wf, CacheFacts.new_wf. }
  assert (Hfull : max c2 <= Z.of_nat (JsMap.size (store c2)))
    by (vm_compute; discriminate).
  assert (Hne : "a"%string <> ""%string) by discriminate.
  assert (Hdiff : "a"%string <> "b"%string) by discriminate.
  destruct (set_present_key_at_capacity_evicts c2 "b" "a"
              (Js.Number (Js.of_Z 3)) None 10 10 10
              Hwf Hfull eq_refl eq_refl Hne Hdiff) as [_ [Ha [_ Hs]]].
  split; [reflexivity|]. split; [reflexivity|].
  split; [exact Ha | exact Hs].
Defined.

End EvictionClaims.

(* ------------------------------------------------------------------ *)
(** ** The cache: order of [timestamp] and [expiry] *)

Section ExpiryOrder.
Import Cache.

Lemma store_ok_remove k s : Spec.store_ok s -> Spec.store_ok (JsMap.remove k s).
Proof.
  unfold Spec.store_ok. induction s as [|[k0 e0] r IH]; simpl; intros H.
  - constructor.
  - inversion H; subst. destruct (String.eqb k k0); [assumption|].
    constructor; [assumption | now apply IH].
Qed.

Lemma store_ok_set k e s :
  Spec.entry_ok e -> Spec.store_ok s -> Spec.store_ok (JsMap.set k e s).
Proof.
  unfold Spec.store_ok. intros He.
  induction s as [|[k0 e0] r IH]; simpl; intros H.
  - constructor; [exact He | constructor].
  - inversion H; subst. destruct (String.eqb k k0).
    + constructor; assumption.
    + constructor; [assumption | now apply IH].
Qed.

Lemma store_ok_filter (f : string * entry -> bool) s :
  Spec.store_ok s -> Spec.store_ok (filter f s).
Proof.
  unfold Spec.store_ok. rewrite !Forall_forall.
  intros H x Hx. apply filter_In in Hx. now apply H.
Qed.

Lemma store_ok_evict s now : Spec.store_ok s -> Spec.store_ok (evict s now).
Proof.
  intros H. destruct (CacheFacts.evict_cases s now) as [-> | [k [_ [_ ->]]]].
  - exact H.
  - now apply store_ok_remove.
Qed.

Lemma store_ok_lookup k e s :
  Spec.store_ok s -> JsMap.get k s = Some e -> Spec.entry_ok e.
Proof.
  unfold Spec.store_ok. induction s as [|[k0 e0] r IH]; simpl; intros H Hg.
  - discriminate.
  - inversion H; subst. destruct (String.eqb k k0).
    + injection Hg as <-. assumption.
    + now apply IH.
Qed.

Lemma ttl_exec c op : ttl (exec c op) = ttl c.
Proof.
  destruct op; simpl; try reflexivity.
  - unfold get. destruct (JsMap.get key (store c)); [|reflexivity].
    destruct (now >? expiry e); reflexivity.
  - unfold has. destruct (JsMap.get key (store c)); [|reflexivity].
    destruct (now >? expiry e); reflexivity.
  - unfold del, JsMap.delete. destruct (JsMap.has key (store c)); reflexivity.
  - unfold prune. destruct (0 <? _)%nat; reflexivity.
Qed.

Lemma store_ok_exec c op :
  Spec.store_ok (store c) ->
  Spec.positive_ttl (ttl c) op ->
  Spec.store_ok (store (exec c op)).
Proof.
  intros H Hop. destruct op; unfold exec; unfold Spec.positive_ttl in Hop.
  - rewrite CacheFacts.store_set. apply store_ok_set.
    + unfold Spec.entry_ok. simpl. lia.
    + destruct (_ >=? _); [now apply store_ok_evict | exact H].
  - unfold get. destruct (JsMap.get key (store c)); simpl; [|exact H].
    destruct (now >? expiry e); simpl; [now apply store_ok_remove | exact H].
  - unfold has. destruct (JsMap.get key (store c)); simpl; [|exact H].
    destruct (now >? expiry e); simpl; [now apply store_ok_remove | exact H].
  - unfold del, JsMap.delete. destruct (JsMap.has key (store c)); simpl;
      now apply store_ok_remove.
  - constructor.
  - now apply store_ok_filter.
  - unfold prune. destruct (0 <? _)%nat; simpl; now apply store_ok_filter.
Qed.

Lemma store_ok_run ops : forall c,
  Spec.store_ok (store c) ->
  Forall (Spec.positive_ttl (ttl c)) ops ->
  Spec.store_ok (store (run c ops)).
Proof.
  induction ops as [|op ops IH]; simpl; intros c H Hops; [exact H|].
  inversion Hops; subst. apply IH.
  - now apply store_ok_exec.
  - now rewrite ttl_exec.
Qed.

(** The same over whole runs. In a cache obtained from the constructor
    by any sequence of method calls in which every [set] has a positive
    effective TTL (its [ttl] argument, or the default TTL of the cache
    when the argument is [undefined] or [0]) and reads a clock that does
    not run backwards between its [timestamp] and [expiry] readings,
    every stored entry satisfies [expiry > timestamp]. *)
Lemma expiry_after_timestamp :
  forall (o : options) (ops : list call) (k : string) (e : entry),
    Forall (Spec.positive_ttl (ttl (new o))) ops ->
    JsMap.get k (store (run (new o) ops)) = Some e ->
    timestamp e < expiry e.
Proof.
  intros o ops k e Hops Hget.
  apply (store_ok_lookup k e (store (run (new o) ops))); [|exact Hget].
  apply store_ok_run; [constructor | exact Hops].
Qed.

Lemma expiry_after_timestamp_run_example :
  timestamp (mkEntry (Js.Number (Js.of_Z 50000)) 1000 61001) <
  expiry (mkEntry (Js.Number (Js.of_Z 50000)) 1000 61001).
Proof.
  apply (expiry_after_timestamp (mkOptions None None)
           [CallSet "BTC" (Js.Number (Js.of_Z 50000)) (Some 60000)
                    1000 1000 1001;
            CallGet "BTC" 2000]
           "BTC").
  - constructor; [simpl; lia|]. constructor; [exact I | constructor].
  - reflexivity.
Defined.

(** C7 as stated fails: the cache accepts a negative [ttl] argument and
    stores an entry that expires before it was created. *)
Lemma negative_ttl_expiry_before_timestamp :
  exists e,
    JsMap.get "k"
      (store (run (new (mkOptions None None))
                  [CallSet "k" (Js.Number (Js.of_Z 1)) (Some (-5))
                           1000 1000 1000])) = Some e /\
    ~ timestamp e < expiry e.
Proof.
  eexists. split; [reflexivity|]. simpl. lia.
Qed.

End ExpiryOrder.

(* ------------------------------------------------------------------ *)
(** ** The price resolver *)

Section ResolverClaims.
Import Cache MarketDataService.

(** When the lookup does not produce a truthy value, [getPrice]
    continues with the cache as [get] left it. *)
Lemma getPrice_after_miss pc symbol clk :
  fst (Cache.has pc (cacheKey symbol) (at_get clk)) = false ->
  Cache.get pc (cacheKey symbol) (at_get clk) =
  (Js.Undefined, snd (Cache.get pc (cacheKey symbol) (at_get clk))).
Proof.
  intros H. apply CacheFacts.get_miss in H.
  destruct (Cache.get pc (cacheKey symbol) (at_get clk)) as [r pc1].
  simpl in *. now subst.
Qed.

(** A present, unexpired, truthy entry short-circuits [getPrice]. *)
Lemma getPrice_hit_result svc pc symbol clk e :
  JsMap.get (cacheKey symbol) (store pc) = Some e ->
  at_get clk <= expiry e ->
  Js.truthy (value e) = true ->
  getPrice svc pc symbol clk =
    (inl (value e),
     with_stats pc (incr_hits (stats pc)),
     [LogDebug ("Using cached price for " ++ symbol)]).
Proof.
  intros Hget Hlive Htruthy.
  unfold getPrice, Cache.get. rewrite Hget.
  destruct (Z.gtb_spec (at_get clk) (expiry e)); [lia|].
  now rewrite Htruthy.
Qed.

(** The falsy values. *)
Lemma falsy_values :
  Js.truthy (Js.Number (Js.of_Z 0)) = false /\
  Js.truthy (Js.Number Js.NaN) = false /\
  Js.truthy Js.Null = false /\
  Js.truthy Js.Undefined = false /\
  Js.truthy (Js.Boolean false) = false /\
  Js.truthy (Js.Str "") = false.
Proof. repeat split. Qed.

(** C6, as the code has it. Let the entry of the key be present and not
    expired. If it holds a truthy value, [getPrice] fulfils with that
    value; it calls no provider and only logs a debug line; the cache is
    unchanged except for one more hit. If it holds a falsy value
    ([0], [NaN], [null], [undefined], [false] or the empty string), the
    entry is treated as a miss: the first thing [getPrice] does is call
    the primary provider; what the primary fulfils with is returned and
    replaces the entry; and a fulfilment value always comes from a
    provider, never from the cache. *)
Theorem getPrice_cache_hit :
  forall (svc : MarketDataService.t) (pc : Cache.t) (symbol : string)
         (clk : clock) (e : entry),
    JsMap.get (cacheKey symbol) (store pc) = Some e ->
    at_get clk <= expiry e ->
    let r := getPrice svc pc symbol clk in
    (Js.truthy (value e) = true ->
     r = (inl (value e),
          with_stats pc (incr_hits (stats pc)),
          [LogDebug ("Using cached price for " ++ symbol)]) /\
     provider_calls (snd r) = []) /\
    (Js.truthy (value e) = false ->
     (exists rest, snd r = ProviderCall Primary symbol :: rest) /\
     (forall p, getCurrentPrice (primaryProvider svc) symbol = inl p ->
        fst (fst r) = inl p /\
        JsMap.get (cacheKey symbol) (store (snd (fst r))) =
          Some (mkEntry p (at_stamp clk) (at_exp clk + ttl pc))) /\
     (forall v, fst (fst r) = inl v ->
        getCurrentPrice (primaryProvider svc) symbol = inl v \/
        exists fallback,
          fallbackProviderInstance svc = Some fallback /\
          getCurrentPrice fallback symbol = inl v)).
Proof.
  intros svc pc symbol clk e Hget Hlive r. split.
  - intros Htruthy.
    pose proof (getPrice_hit_result svc pc symbol clk e Hget Hlive Htruthy)
      as H.
    fold r in H. split; [exact H|]. rewrite H. reflexivity.
  - intros Hfalsy. unfold r, getPrice, Cache.get. rewrite Hget.
    destruct (Z.gtb_spec (at_get clk) (expiry e)); [lia|].
    rewrite Hfalsy.
    destruct (getCurrentPrice (primaryProvider svc) symbol) as [p|e1].
    + cbn [fst snd]. split; [eexists; reflexivity|]. split.
      * intros p' Hp. injection Hp as <-. split; [reflexivity|].
        rewrite CacheFacts.store_set, JsMapFacts.get_set_same.
        reflexivity.
      * intros v Hv. left. exact Hv.
    + destruct (fallbackProviderInstance svc) as [fb|].
      * destruct (getCurrentPrice fb symbol) as [p|e2] eqn:Efb;
          cbn [fst snd].
        -- split; [eexists; reflexivity|]. split; [discriminate|].
           intros v Hv. right. exists fb.
           split; [reflexivity | now rewrite <- Hv].
        -- split; [eexists; reflexivity|]. split; discriminate.
      * cbn [fst snd]. split; [eexists; reflexivity|]. split; discriminate.
Qed.

Lemma getPrice_cache_hit_witness :
  let pc := snd (Cache.set priceCache "price:btc"
                           (Js.Number (Js.of_Z 50000)) None 0 0 0) in
  let svc := mkService (mkProvider (fun _ => inl (Js.Number (Js.of_Z 1))))
                       None in
  fst (fst (getPrice svc pc "BTC" (mkClock 1000 1000 1000 1000))) =
    inl (Js.Number (Js.of_Z 50000)) /\
  provider_calls (snd (getPrice svc pc "BTC" (mkClock 1000 1000 1000 1000)))
    = [].
Proof.
  cbv zeta.
  pose proof (getPrice_cache_hit
                (mkService (mkProvider (fun _ => inl (Js.Number (Js.of_Z 1))))
                           None)
                (snd (Cache.set priceCache "price:btc"
                                (Js.Number (Js.of_Z 50000)) None 0 0 0))
                "BTC" (mkClock 1000 1000 1000 1000)
                (mkEntry (Js.Number (Js.of_Z 50000)) 0 300000)
                eq_refl ltac:(simpl; lia)) as H.
  cbv zeta in H. destruct H as [H _].
  destruct (H eq_refl) as [H1 H2].
  split; [now rewrite H1 | exact H2].
Defined.

(** C6 as stated fails: a cached price of [0] is present and not
    expired, yet [getPrice] treats it as absent, asks the primary
    provider and returns the provider's answer. *)
Lemma getPrice_cached_zero_calls_provider :
  let pc := snd (Cache.set priceCache "price:btc"
                           (Js.Number (Js.of_Z 0)) None 0 0 0) in
  let svc := mkService (mkProvider (fun _ => inl (Js.Number (Js.of_Z 42))))
                       None in
  let clk := mkClock 1000 1000 1000 1000 in
  Spec.live pc (cacheKey "BTC") (at_get clk) /\
  fst (Cache.get pc (cacheKey "BTC") (at_get clk)) = Js.Number (Js.of_Z 0) /\
  fst (fst (getPrice svc pc "BTC" clk)) = inl (Js.Number (Js.of_Z 42)) /\
  provider_calls (snd (getPrice svc pc "BTC" clk)) =
    [ProviderCall Primary "BTC"].
Proof.
  cbv zeta. split; [|repeat split].
  eexists. split; [reflexivity|]. simpl. lia.
Qed.

(** C3, as the code has it. If the lookup misses, the primary provider
    fails and the fallback provider fulfils with a truthy payload [p],
    then [getPrice] fulfils with [p], having called each provider once,
    and stores [p] under the cache key; a following [getPrice] for the
    same symbol whose lookup happens no later than the expiry of that
    entry fulfils with [p] and calls no provider, whatever the providers
    would answer. *)
Theorem getPrice_fallback_success :
  forall (svc svc' : MarketDataService.t) (pc : Cache.t) (symbol : string)
         (clk clk' : clock) (fallback : provider) (error : Errors.error)
         (p : Js.value),
    fst (Cache.has pc (cacheKey symbol) (at_get clk)) = false ->
    getCurrentPrice (primaryProvider svc) symbol = inr error ->
    fallbackProviderInstance svc = Some fallback ->
    getCurrentPrice fallback symbol = inl p ->
    Js.truthy p = true ->
    at_get clk' <= at_exp clk + ttl pc ->
    let r1 := getPrice svc pc symbol clk in
    let pc1 := snd (fst r1) in
    let r2 := getPrice svc' pc1 symbol clk' in
    fst (fst r1) = inl p /\
    provider_calls (snd r1) =
      [ProviderCall Primary symbol; ProviderCall Fallback symbol] /\
    JsMap.get (cacheKey symbol) (store pc1) =
      Some (mkEntry p (at_stamp clk) (at_exp clk + ttl pc)) /\
    fst (fst r2) = inl p /\
    provider_calls (snd r2) = [].
Proof.
  intros svc svc' pc symbol clk clk' fb err p Hmiss Hprim Hfb Hfall Htr Hnow
         r1 pc1 r2.
  assert (H1 : r1 =
    (inl p,
     snd (Cache.set (snd (Cache.get pc (cacheKey symbol) (at_get clk)))
                    (cacheKey symbol) p None
                    (at_scan clk) (at_stamp clk) (at_exp clk)),
     [ProviderCall Primary symbol;
      LogWarn ("Primary provider failed for " ++ symbol ++ " price: "
               ++ Errors.message err);
      ProviderCall Fallback symbol])).
  { unfold r1, getPrice.
    rewrite (getPrice_after_miss pc symbol clk Hmiss).
    simpl Js.truthy. cbv iota. now rewrite Hprim, Hfb, Hfall. }
  assert (Hst : JsMap.get (cacheKey symbol) (store pc1) =
                Some (mkEntry p (at_stamp clk) (at_exp clk + ttl pc))).
  { unfold pc1. rewrite H1. cbn [fst snd].
    rewrite CacheFacts.store_set, JsMapFacts.get_set_same.
    pose proof (CacheFacts.ttl_get pc (cacheKey symbol) (at_get clk)) as Ht.
    now rewrite Ht. }
  pose proof (getPrice_hit_result svc' pc1 symbol clk' _ Hst Hnow Htr) as H2.
  fold r2 in H2. cbn [value] in H2.
  rewrite H1 at 1 2. rewrite H2.
  repeat split. exact Hst.
Qed.

Lemma getPrice_fallback_success_witness :
  let failing := mkProvider (fun symbol =>
                   inr (Errors.Error "timeout")) in
  let binance := mkProvider (fun _ => inl (Js.Number (Js.of_Z 3000))) in
  let svc := mkService failing (Some binance) in
  let clk := mkClock 1000 1001 1001 1001 in
  let r1 := getPrice svc priceCache "ETH" clk in
  fst (fst r1) = inl (Js.Number (Js.of_Z 3000)) /\
  provider_calls
    (snd (getPrice svc (snd (fst r1)) "ETH" (mkClock 1002 1002 1002 1002)))
    = [].
Proof.
  cbv zeta.
  pose proof (getPrice_fallback_success
    (mkService (mkProvider (fun symbol => inr (Errors.Error "timeout")))
               (Some (mkProvider (fun _ => inl (Js.Number (Js.of_Z 3000))))))
    (mkService (mkProvider (fun symbol => inr (Errors.Error "timeout")))
               (Some (mkProvider (fun _ => inl (Js.Number (Js.of_Z 3000))))))
    priceCache "ETH" (mkClock 1000 1001 1001 1001)
    (mkClock 1002 1002 1002 1002)
    (mkProvider (fun _ => inl (Js.Number (Js.of_Z 3000))))
    (Errors.Error "timeout") (Js.Number (Js.of_Z 3000))
    eq_refl eq_refl eq_refl eq_refl eq_refl ltac:(simpl; lia)) as H.
  cbv zeta in H. destruct H as [H1 [_ [_ [_ H5]]]].
  exact (conj H1 H5).
Defined.

(** C3 as stated fails: the fallback provider fulfils with the price
    [0] (what [parseFloat] gives for a quoted price of zero). The first
    [getPrice] returns [0] and stores it; the [getPrice] that follows at
    once finds the entry, discards it as falsy and calls both providers
    again. *)
Lemma getPrice_fallback_zero_refetched :
  let failing := mkProvider (fun symbol =>
                   inr (Errors.new_AppError
                          ("Failed to get price for " ++ symbol) 500)) in
  let binance := mkProvider (fun _ => inl (Js.Number (Js.of_Z 0))) in
  let svc := mkService failing (Some binance) in
  let clk := mkClock 1000 1000 1000 1000 in
  let r1 := getPrice svc priceCache "ETH" clk in
  let pc1 := snd (fst r1) in
  let r2 := getPrice svc pc1 "ETH" clk in
  fst (Cache.has priceCache (cacheKey "ETH") (at_get clk)) = false /\
  fst (fst r1) = inl (Js.Number (Js.of_Z 0)) /\
  fst (Cache.has pc1 (cacheKey "ETH") (at_get clk)) = true /\
  provider_calls (snd r2) =
    [ProviderCall Primary "ETH"; ProviderCall Fallback "ETH"].
Proof. cbv zeta. repeat split. Qed.

(** C2, as the code has it. If the lookup misses and both providers
    fail, [getPrice] rejects with an [AppError] of status 500 whose
    message is ["Failed to get price for <symbol> from any provider"]:
    it depends on the symbol only. The two underlying messages go to the
    log (one warning, one error line); each provider was called once; no
    [set] happened and the key is absent from the cache afterwards. *)
Theorem getPrice_total_failure :
  forall (svc : MarketDataService.t) (pc : Cache.t) (symbol : string)
         (clk : clock) (fallback : provider) (e1 e2 : Errors.error),
    JsMap.wf (store pc) ->
    fst (Cache.has pc (cacheKey symbol) (at_get clk)) = false ->
    getCurrentPrice (primaryProvider svc) symbol = inr e1 ->
    fallbackProviderInstance svc = Some fallback ->
    getCurrentPrice fallback symbol = inr e2 ->
    let r := getPrice svc pc symbol clk in
    let pc' := snd (fst r) in
    fst (fst r) =
      inr (Errors.AppError
             ("Failed to get price for " ++ symbol ++ " from any provider")
             500 "INTERNAL_ERROR") /\
    snd r =
      [ProviderCall Primary symbol;
       LogWarn ("Primary provider failed for " ++ symbol ++ " price: "
                ++ Errors.message e1);
       ProviderCall Fallback symbol;
       LogError ("Fallback provider also failed for " ++ symbol
                 ++ " price: " ++ Errors.message e2)] /\
    sets (stats pc') = sets (stats pc) /\
    JsMap.get (cacheKey symbol) (store pc') = None /\
    (forall now, fst (Cache.has pc' (cacheKey symbol) now) = false).
Proof.
  intros svc pc symbol clk fb e1 e2 Hwf Hmiss Hprim Hfb Hfall r pc'.
  assert (H : r =
    (inr (Errors.AppError
            ("Failed to get price for " ++ symbol ++ " from any provider")
            500 "INTERNAL_ERROR"),
     snd (Cache.get pc (cacheKey symbol) (at_get clk)),
     [ProviderCall Primary symbol;
      LogWarn ("Primary provider failed for " ++ symbol ++ " price: "
               ++ Errors.message e1);
      ProviderCall Fallback symbol;
      LogError ("Fallback provider also failed for " ++ symbol
                ++ " price: " ++ Errors.message e2)])).
  { unfold r, getPrice.
    rewrite (getPrice_after_miss pc symbol clk Hmiss).
    simpl Js.truthy. cbv iota. now rewrite Hprim, Hfb, Hfall. }
  assert (Habs : JsMap.get (cacheKey symbol) (store pc') = None).
  { unfold pc'. rewrite H. cbn [fst snd].
    now apply CacheFacts.get_miss_absent. }
  split; [now rewrite H|]. split; [now rewrite H|]. split; [|split].
  - unfold pc'. rewrite H. cbn [fst snd]. apply CacheFacts.sets_get.
  - exact Habs.
  - intros now. unfold Cache.has. now rewrite Habs.
Qed.

Lemma getPrice_total_failure_witness :
  let svc := mkService
               (mkProvider (fun _ => inr (Errors.Error "timeout")))
               (Some (mkProvider (fun _ => inr (Errors.Error "timeout")))) in
  let r := getPrice svc priceCache "ETH" (mkClock 1000 1000 1000 1000) in
  fst (fst r) =
    inr (Errors.AppError "Failed to get price for ETH from any provider"
           500 "INTERNAL_ERROR") /\
  JsMap.get "price:eth" (store (snd (fst r))) = None.
Proof.
  cbv zeta.
  pose proof (getPrice_total_failure
    (mkService (mkProvider (fun _ => inr (Errors.Error "timeout")))
               (Some (mkProvider (fun _ => inr (Errors.Error "timeout")))))
    priceCache "ETH" (mkClock 1000 1000 1000 1000)
    (mkProvider (fun _ => inr (Errors.Error "timeout")))
    (Errors.Error "timeout") (Errors.Error "timeout")
    (CacheFacts.new_wf _) eq_refl eq_refl eq_refl eq_refl) as H.
  cbv zeta in H. destruct H as [H1 [_ [_ [H4 _]]]].
  exact (conj H1 H4).
Defined.

(** C2 as stated fails: both providers fail with a timeout message, and
    the message of the rejection contains neither of them. *)
Lemma getPrice_total_failure_omits_causes :
  let svc := mkService
               (mkProvider (fun _ => inr (Errors.Error "timeout of 10000ms exceeded")))
               (Some (mkProvider (fun _ => inr (Errors.Error "timeout of 5000ms exceeded")))) in
  let r := getPrice svc priceCache "ETH" (mkClock 1000 1000 1000 1000) in
  exists err,
    fst (fst r) = inr err /\
    Js.includes (Errors.message err) "timeout of 10000ms exceeded" = false /\
    Js.includes (Errors.message err) "timeout of 5000ms exceeded" = false /\
    Js.includes (Errors.message err) "timeout" = false.
Proof.
  cbv zeta. eexists. split; [reflexivity|]. repeat split.
Qed.

End ResolverClaims.

(* ------------------------------------------------------------------ *)
(** ** The cache: deletion, sweeping and lookups *)

Section CacheSweep.
Import Cache.

Lemma get_filter (f : string * entry -> bool) k (s : JsMap.t entry) :
  JsMap.wf s ->
  JsMap.get k (filter f s) =
  match JsMap.get k s with
  | Some e => if f (k, e) then Some e else None
  | None => None
  end.
Proof.
  unfold JsMap.wf. induction s as [|[k0 e0] r IH]; simpl; intros H.
  - reflexivity.
  - inversion H as [|? ? Hn Hr]; subst.
    destruct (String.eqb k k0) eqn:E.
    + apply String.eqb_eq in E. subst k0.
      destruct (f (k, e0)); simpl.
      * now rewrite String.eqb_refl.
      * rewrite (IH Hr).
        apply JsMapFacts.get_None_iff in Hn. now rewrite Hn.
    + destruct (f (k0, e0)); simpl; [rewrite E|]; now apply IH.
Qed.

Lemma filter_split_length (f : string * entry -> bool) (s : JsMap.t entry) :
  (List.length (filter (fun x => negb (f x)) s) + List.length (filter f s)
   = List.length s)%nat.
Proof.
  induction s as [|x r IH]; simpl; [reflexivity|].
  destruct (f x); simpl; lia.
Qed.

Lemma filter_none (f : string * entry -> bool) (s : JsMap.t entry) :
  filter f (filter (fun x => negb (f x)) s) = [].
Proof.
  induction s as [|x r IH]; simpl; [reflexivity|].
  destruct (f x) eqn:E; simpl; [exact IH|]. now rewrite E.
Qed.

Lemma filter_twice (f : string * entry -> bool) (s : JsMap.t entry) :
  filter f (filter f s) = filter f s.
Proof.
  induction s as [|x r IH]; simpl; [reflexivity|].
  destruct (f x) eqn:E; simpl; [rewrite E, IH|]; auto.
Qed.

(** X1. [del(key)] answers whether the key was physically in the store
    (expired or not); afterwards the key is absent, every other key is
    as before, and [deletes] and the size move by one exactly when the
    answer is [true]. *)
Theorem del_effect :
  forall (c : t) (key : string),
    JsMap.wf (store c) ->
    let r := del c key in
    fst r = JsMap.has key (store c) /\
    JsMap.get key (store (snd r)) = None /\
    (forall k, k <> key ->
       JsMap.get k (store (snd r)) = JsMap.get k (store c)) /\
    deletes (stats (snd r)) =
      (deletes (stats c) + if fst r then 1 else 0)%nat /\
    (JsMap.size (store (snd r)) + (if fst r then 1 else 0)
     = JsMap.size (store c))%nat /\
    hits (stats (snd r)) = hits (stats c) /\
    misses (stats (snd r)) = misses (stats c) /\
    sets (stats (snd r)) = sets (stats c).
Proof.
  intros c key Hwf r. unfold r, del, JsMap.delete.
  destruct (JsMap.has key (store c)) eqn:E; simpl.
  - repeat split.
    + now apply JsMapFacts.get_remove_same.
    + intros k Hk. apply JsMapFacts.get_remove_other. congruence.
    + pose proof (JsMapFacts.size_remove _ _ E). lia.
  - rewrite (JsMapFacts.size_remove_absent _ _ E). repeat split; try lia.
    now apply JsMapFacts.has_false_iff.
Qed.

Lemma del_effect_witness :
  let c := snd (set (new (mkOptions None None)) "a"
                    (Js.Number (Js.of_Z 1)) (Some 10) 0 0 0) in
  fst (del c "a") = true /\
  JsMap.get "a" (store (snd (del c "a"))) = None.
Proof.
  cbv zeta.
  destruct (del_effect
              (snd (set (new (mkOptions None None)) "a"
                        (Js.Number (Js.of_Z 1)) (Some 10) 0 0 0)) "a"
              (CacheFacts.set_wf _ _ _ _ _ _ _ (CacheFacts.new_wf _)))
    as [H1 [H2 _]].
  split; [rewrite H1; reflexivity | exact H2].
Defined.

(** X2. [prune()] returns the number of entries whose expiry lies
    strictly before [now]; it removes exactly those (every other entry is
    still found, unchanged), adds that number to [deletes], and leaves
    [hits], [misses] and [sets] alone. *)
Theorem prune_effect :
  forall (c : t) (now : Z),
    JsMap.wf (store c) ->
    let r := prune c now in
    (JsMap.size (store (snd r)) + fst r = JsMap.size (store c))%nat /\
    (forall k,
       JsMap.get k (store (snd r)) =
       match JsMap.get k (store c) with
       | Some e => if now >? expiry e then None else Some e
       | None => None
       end) /\
    deletes (stats (snd r)) = (deletes (stats c) + fst r)%nat /\
    hits (stats (snd r)) = hits (stats c) /\
    misses (stats (snd r)) = misses (stats c) /\
    sets (stats (snd r)) = sets (stats c).
Proof.
  intros c now Hwf r. unfold r, prune.
  set (f := fun ke : string * entry => expired now (snd ke)).
  pose proof (filter_split_length f (store c)) as Hlen.
  assert (Hget : forall k,
    JsMap.get k (filter (fun ke => negb (f ke)) (store c)) =
    match JsMap.get k (store c) with
    | Some e => if now >? expiry e then None else Some e
    | None => None
    end).
  { intros k. rewrite get_filter by exact Hwf.
    destruct (JsMap.get k (store c)) as [e|]; [|reflexivity].
    unfold f, expired. simpl. now destruct (now >? expiry e). }
  destruct (Nat.ltb_spec 0 (List.length (filter f (store c)))) as [Hpos|Hz];
    simpl; unfold JsMap.size.
  - repeat split; auto.
  - assert (Hc : List.length (filter f (store c)) = 0%nat) by lia.
    rewrite Hc in *. repeat split; auto.
Qed.

Lemma prune_effect_witness :
  let c0 := new (mkOptions None None) in
  let c1 := snd (set c0 "old" (Js.Number (Js.of_Z 1)) (Some 10) 0 0 0) in
  let c2 := snd (set c1 "new" (Js.Number (Js.of_Z 2)) (Some 1000) 5 5 5) in
  fst (prune c2 100) = 1%nat /\
  JsMap.get "old" (store (snd (prune c2 100))) = None /\
  deletes (stats (snd (prune c2 100))) = 1%nat.
Proof.
  cbv zeta.
  set (c2 := snd (set (snd (set (new (mkOptions None None)) "old"
                                (Js.Number (Js.of_Z 1)) (Some 10) 0 0 0))
                      "new" (Js.Number (Js.of_Z 2)) (Some 1000) 5 5 5)).
  assert (Hwf : JsMap.wf (store c2)).
  { apply CacheFacts.set_wf, CacheFacts.set_wf, CacheFacts.new_wf. }
  destruct (prune_effect c2 100 Hwf) as [_ [H2 [H3 _]]].
  split; [reflexivity|]. split.
  - rewrite H2. reflexivity.
  - rewrite H3. reflexivity.
Defined.

(** X3. Sweeping twice at the same time is sweeping once: a second
    [prune()] with the same clock reading removes nothing, returns [0]
    and leaves the cache, counters included, as the first one left it. *)
Theorem prune_idempotent :
  forall (c : t) (now : Z),
    prune (snd (prune c now)) now = (0%nat, snd (prune c now)).
Proof.
  intros c now.
  assert (H : forall c1,
    store c1 = filter (fun ke => negb (expired now (snd ke))) (store c) ->
    prune c1 now = (0%nat, c1)).
  { intros c1 Hs. unfold prune. rewrite Hs.
    rewrite (filter_none (fun ke => expired now (snd ke))). simpl.
    rewrite filter_twice. rewrite <- Hs. now destruct c1. }
  apply H. unfold prune. destruct (0 <? _)%nat; reflexivity.
Qed.

(** X4. [values()] returns the values of the entries that have not
    expired, in insertion order, one per entry that remains; it removes
    the same entries as [prune()] would, but, unlike [prune()], does not
    count them in [deletes] (nor touches any other counter). *)
Theorem values_effect :
  forall (c : t) (now : Z),
    let r := values c now in
    store (snd r) = store (snd (prune c now)) /\
    fst r = List.map (fun ke => value (snd ke)) (store (snd r)) /\
    List.length (fst r) = JsMap.size (store (snd r)) /\
    Forall (fun ke => now <= expiry (snd ke)) (store (snd r)) /\
    stats (snd r) = stats c /\
    deletes (stats (snd (prune c now))) =
      (deletes (stats c) + fst (prune c now))%nat.
Proof.
  intros c now r. unfold r, values, prune. simpl.
  split; [destruct (0 <? _)%nat; reflexivity|].
  split; [reflexivity|]. split; [apply length_map|].
  split; [|split; [reflexivity|]].
  - apply Forall_forall. intros x Hx. apply filter_In in Hx.
    destruct Hx as [_ Hx]. unfold expired in Hx.
    destruct (Z.gtb_spec now (expiry (snd x))); [discriminate | lia].
  - destruct (Nat.ltb_spec 0
      (List.length (filter (fun ke => expired now (snd ke)) (store c))));
      simpl; lia.
Qed.

(** X5. [has(key)] and [get(key)] agree: [has] answers [true] exactly
    when [get] records a hit, in which case [get] returns the value of an
    entry that has not expired; both leave the same store behind (an
    expired entry of the key is removed by either); [has] changes no
    counter. *)
Theorem has_agrees_with_get :
  forall (c : t) (key : string) (now : Z),
    store (snd (has c key now)) = store (snd (get c key now)) /\
    stats (snd (has c key now)) = stats c /\
    (fst (has c key now) = true <->
     hits (stats (snd (get c key now))) = S (hits (stats c))) /\
    (fst (has c key now) = true ->
     exists e, JsMap.get key (store c) = Some e /\ now <= expiry e /\
               fst (get c key now) = value e) /\
    (fst (has c key now) = false -> fst (get c key now) = Js.Undefined).
Proof.
  intros c key now. unfold has, get.
  destruct (JsMap.get key (store c)) as [e|]; simpl.
  - destruct (Z.gtb_spec now (expiry e)); simpl.
    + split; [reflexivity|]. split; [reflexivity|].
      split; [split; [discriminate | lia]|].
      split; [discriminate | reflexivity].
    + split; [reflexivity|]. split; [reflexivity|].
      split; [split; reflexivity|].
      split; [|discriminate].
      intros _. exists e. split; [reflexivity|]. split; [lia | reflexivity].
  - split; [reflexivity|]. split; [reflexivity|].
    split; [split; [discriminate | lia]|].
    split; [discriminate | reflexivity].
Qed.

End CacheSweep.

(* ------------------------------------------------------------------ *)
(** ** The cache: which entry is evicted, and what [set] leaves alone *)

Section CacheEviction.
Import Cache.

(** The scan, from any accumulator: it ends on the first entry that
    carries the least timestamp below the starting time, or on the
    accumulator itself when there is none. *)
Lemma oldest_scan s : forall ko t0,
  (fold_left oldest_step s (ko, t0) = (ko, t0) /\
   Forall (fun ke => t0 <= timestamp (snd ke)) s) \/
  (exists s1 k e s2,
     s = (s1 ++ (k, e) :: s2)%list /\
     fold_left oldest_step s (ko, t0) = (Some k, timestamp e) /\
     timestamp e < t0 /\
     Forall (fun ke => timestamp e < timestamp (snd ke)) s1 /\
     Forall (fun ke => timestamp e <= timestamp (snd ke)) s2).
Proof.
  induction s as [|[k0 e0] r IH]; intros ko t0.
  - left. split; [reflexivity | constructor].
  - assert (Hstep : oldest_step (ko, t0) (k0, e0) =
                    if timestamp e0 <? t0 then (Some k0, timestamp e0)
                    else (ko, t0)) by reflexivity.
    cbn [fold_left]. rewrite Hstep. clear Hstep.
    destruct (Z.ltb_spec (timestamp e0) t0) as [Hlt|Hge].
    + right. destruct (IH (Some k0) (timestamp e0))
        as [[Hf Hall] | [s1 [k [e [s2 [Hs [Hf [Ht [H1 H2]]]]]]]]].
      * exists [], k0, e0, r. repeat split; auto.
      * exists ((k0, e0) :: s1), k, e, s2. subst r.
        repeat split; auto; try lia;
          try (constructor; [simpl; lia | exact H1]).
    + destruct (IH ko t0)
        as [[Hf Hall] | [s1 [k [e [s2 [Hs [Hf [Ht [H1 H2]]]]]]]]].
      * left. split; [exact Hf|]. constructor; [simpl; lia | exact Hall].
      * right. exists ((k0, e0) :: s1), k, e, s2. subst r.
        repeat split; auto; try lia;
          try (constructor; [simpl; lia | exact H1]).
Qed.

Lemma remove_middle (s1 s2 : JsMap.t entry) k e :
  ~ In k (JsMap.keys s1) ->
  JsMap.remove k (s1 ++ (k, e) :: s2)%list = (s1 ++ s2)%list.
Proof.
  induction s1 as [|[k1 e1] r IH]; simpl; intros H.
  - now rewrite String.eqb_refl.
  - destruct (String.eqb k k1) eqn:E.
    + apply String.eqb_eq in E. exfalso. apply H. left. congruence.
    + rewrite IH; [reflexivity|]. intros Hin. apply H. now right.
Qed.

Lemma wf_app_head (s1 s2 : JsMap.t entry) k e :
  JsMap.wf (s1 ++ (k, e) :: s2)%list -> ~ In k (JsMap.keys s1).
Proof.
  unfold JsMap.wf, JsMap.keys. rewrite map_app. simpl. intros H Hin.
  apply NoDup_remove_2 in H. apply H. apply in_or_app. now left.
Qed.

(** X6. Which entry the eviction removes. If some stored entry is
    strictly older than the clock reading of the scan, and the empty
    string is not a key, the eviction removes exactly one entry: one with
    the least timestamp of the store, and among those the first in
    insertion order; the other entries keep their order. *)
Theorem evict_removes_first_oldest :
  forall (s : JsMap.t entry) (now : Z),
    JsMap.wf s ->
    ~ In ""%string (JsMap.keys s) ->
    Exists (fun ke => timestamp (snd ke) < now) s ->
    exists s1 k e s2,
      s = (s1 ++ (k, e) :: s2)%list /\
      evict s now = (s1 ++ s2)%list /\
      timestamp e < now /\
      Forall (fun ke => timestamp e < timestamp (snd ke)) s1 /\
      Forall (fun ke => timestamp e <= timestamp (snd ke)) s2.
Proof.
  intros s now Hwf Hempty Hold.
  destruct (oldest_scan s None now)
    as [[_ Hall] | [s1 [k [e [s2 [Hs [Hf [Ht [H1 H2]]]]]]]]].
  - exfalso. apply Exists_exists in Hold. destruct Hold as [x [Hx Hlt]].
    rewrite Forall_forall in Hall. specialize (Hall x Hx). lia.
  - exists s1, k, e, s2. repeat split; auto.
    assert (Hk : k <> ""%string).
    { intros ->. apply Hempty. subst s. unfold JsMap.keys.
      rewrite map_app. apply in_or_app. right. now left. }
    unfold evict, find_oldest. rewrite Hf. simpl.
    apply String.eqb_neq in Hk. rewrite Hk. simpl.
    subst s. apply remove_middle. eapply wf_app_head. exact Hwf.
Qed.

Lemma evict_removes_first_oldest_witness :
  exists s1 k e s2,
    [("a", mkEntry Js.Null 7 100); ("b", mkEntry Js.Null 3 100);
     ("c", mkEntry Js.Null 3 100)]%string = (s1 ++ (k, e) :: s2)%list /\
    evict [("a", mkEntry Js.Null 7 100); ("b", mkEntry Js.Null 3 100);
           ("c", mkEntry Js.Null 3 100)]%string 10 = (s1 ++ s2)%list /\
    timestamp e < 10 /\
    Forall (fun ke => timestamp e < timestamp (snd ke)) s1 /\
    Forall (fun ke => timestamp e <= timestamp (snd ke)) s2.
Proof.
  apply (evict_removes_first_oldest
           [("a", mkEntry Js.Null 7 100); ("b", mkEntry Js.Null 3 100);
            ("c", mkEntry Js.Null 3 100)]%string 10).
  - unfold JsMap.wf. simpl.
    repeat constructor; simpl; intuition discriminate.
  - simpl. intuition discriminate.
  - constructor. simpl. lia.
Defined.

Lemma size_evict_bounds s now :
  (JsMap.size (evict s now) <= JsMap.size s <= S (JsMap.size (evict s now)))%nat.
Proof.
  destruct (CacheFacts.evict_cases s now) as [-> | [k [Hk [_ ->]]]]; [lia|].
  apply CacheFacts.find_oldest_in_store in Hk.
  pose proof (JsMapFacts.size_remove _ _ Hk). lia.
Qed.

(** X7. What every [set] does to the counters and the size: it returns
    [true], adds one to [sets] and nothing to [hits], [misses] or
    [deletes] (an eviction is not counted as a delete), keeps [ttl] and
    [max], leaves the key present, and changes the number of entries by
    at most one in either direction. *)
Theorem set_frame :
  forall (c : t) (key : string) (v : Js.value) (ttl_arg : option Z)
         (now_scan now_stamp now_exp : Z),
    let r := set c key v ttl_arg now_scan now_stamp now_exp in
    fst r = true /\
    sets (stats (snd r)) = S (sets (stats c)) /\
    hits (stats (snd r)) = hits (stats c) /\
    misses (stats (snd r)) = misses (stats c) /\
    deletes (stats (snd r)) = deletes (stats c) /\
    ttl (snd r) = ttl c /\ max (snd r) = max c /\
    JsMap.has key (store (snd r)) = true /\
    (JsMap.size (store (snd r)) <= S (JsMap.size (store c)))%nat /\
    (JsMap.size (store c) <= S (JsMap.size (store (snd r))))%nat.
Proof.
  intros c key v a t0 t1 t2 r. unfold r.
  repeat (split; [reflexivity|]).
  rewrite CacheFacts.store_set. split.
  - unfold JsMap.has. now rewrite JsMapFacts.get_set_same.
  - rewrite JsMapFacts.size_set.
    pose proof (size_evict_bounds (store c) t0) as Hb.
    destruct (_ >=? _); destruct (JsMap.has key _); lia.
Qed.

(** X8. A [set] on a cache that is not full ([size < max]) touches only
    its own key: every other key is found as before, and the size grows
    by one exactly when the key is new. *)
Theorem set_with_room :
  forall (c : t) (key : string) (v : Js.value) (ttl_arg : option Z)
         (now_scan now_stamp now_exp : Z),
    Z.of_nat (JsMap.size (store c)) < max c ->
    let c' := snd (set c key v ttl_arg now_scan now_stamp now_exp) in
    (forall k, k <> key -> JsMap.get k (store c') = JsMap.get k (store c)) /\
    JsMap.size (store c') =
      (if JsMap.has key (store c) then JsMap.size (store c)
       else S (JsMap.size (store c))) /\
    JsMap.get key (store c') =
      Some (mkEntry v now_stamp (now_exp + Js.or_default ttl_arg (ttl c))).
Proof.
  intros c key v a t0 t1 t2 Hroom c'. unfold c'.
  rewrite CacheFacts.store_set.
  destruct (Z.geb_spec (Z.of_nat (JsMap.size (store c))) (max c)); [lia|].
  split; [|split].
  - intros k Hk. apply JsMapFacts.get_set_other. congruence.
  - apply JsMapFacts.size_set.
  - apply JsMapFacts.get_set_same.
Qed.

Lemma set_with_room_witness :
  let c := snd (set (new (mkOptions None (Some 2))) "a"
                    (Js.Number (Js.of_Z 1)) None 0 0 0) in
  JsMap.get "a" (store (snd (set c "b" (Js.Number (Js.of_Z 2)) None 0 0 0)))
  = JsMap.get "a" (store c).
Proof.
  cbv zeta.
  destruct (set_with_room
              (snd (set (new (mkOptions None (Some 2))) "a"
                        (Js.Number (Js.of_Z 1)) None 0 0 0))
              "b" (Js.Number (Js.of_Z 2)) None 0 0 0 eq_refl) as [H _].
  apply H. discriminate.
Defined.

End CacheEviction.

(* ------------------------------------------------------------------ *)
(** ** The cache over sequences of calls *)

Section CacheRuns.
Import Cache.

Lemma max_exec c op : max (exec c op) = max c.
Proof.
  destruct op; simpl; try reflexivity.
  - unfold get. destruct (JsMap.get key (store c)); [|reflexivity].
    destruct (now >? expiry e); reflexivity.
  - unfold has. destruct (JsMap.get key (store c)); [|reflexivity].
    destruct (now >? expiry e); reflexivity.
  - unfold del, JsMap.delete. destruct (JsMap.has key (store c)); reflexivity.
  - unfold prune. destruct (0 <? _)%nat; reflexivity.
Qed.

Lemma counters_exec c op :
  sets (stats (exec c op)) =
    (sets (stats c) + if Trace.is_set op then 1 else 0)%nat /\
  (hits (stats (exec c op)) + misses (stats (exec c op)) =
   hits (stats c) + misses (stats c) + if Trace.is_get op then 1 else 0)%nat.
Proof.
  destruct op; simpl.
  - lia.
  - unfold get. destruct (JsMap.get key (store c)); simpl; [|lia].
    destruct (now >? expiry e); simpl; lia.
  - unfold has. destruct (JsMap.get key (store c)); simpl; [|lia].
    destruct (now >? expiry e); simpl; lia.
  - unfold del, JsMap.delete. destruct (JsMap.has key (store c)); simpl; lia.
  - lia.
  - lia.
  - unfold prune. destruct (0 <? _)%nat; simpl; lia.
Qed.

Lemma counters_run ops : forall c,
  sets (stats (run c ops)) =
    (sets (stats c) + List.length (filter Trace.is_set ops))%nat /\
  (hits (stats (run c ops)) + misses (stats (run c ops)) =
   hits (stats c) + misses (stats c)
   + List.length (filter Trace.is_get ops))%nat.
Proof.
  induction ops as [|op ops IH]; intros c; simpl; [lia|].
  destruct (IH (exec c op)) as [H1 H2].
  destruct (counters_exec c op) as [E1 E2].
  fold (run (exec c op) ops).
  destruct (Trace.is_set op); destruct (Trace.is_get op); simpl; lia.
Qed.

(** X9. The counters count calls. On a cache obtained from the
    constructor by any sequence of method calls, [sets] is the number of
    [set] calls made and [hits + misses] is the number of [get] calls
    made: [has], [del], [clear], [values] and [prune] never touch these
    counters, and every [get] is counted exactly once. *)
Theorem counters_count_calls :
  forall (o : options) (ops : list call),
    sets (stats (run (new o) ops)) = List.length (filter Trace.is_set ops) /\
    (hits (stats (run (new o) ops)) + misses (stats (run (new o) ops)))%nat
    = List.length (filter Trace.is_get ops).
Proof.
  intros o ops. destruct (counters_run ops (new o)) as [H1 H2].
  simpl in H1, H2. split; lia.
Qed.

(** X10. The reported hit rate is always a finite number between 0 and
    1, whatever the counters are. *)
Theorem hitRate_in_unit_interval :
  forall (c : t),
    exists q, hitRate (getStats c) = Js.Num q /\ (0 <= q)%Q /\ (q <= 1)%Q.
Proof.
  intros c. unfold getStats, hitRate.
  set (h := hits (stats c)). set (m := misses (stats c)).
  destruct (h + m)%nat as [|n] eqn:E.
  - assert (Hh : h = 0%nat) by lia. rewrite Hh.
    exists 0%Q. repeat split; discriminate.
  - rewrite <- E.
    destruct (JsFacts.div_unit h (h + m) ltac:(lia) ltac:(lia))
      as [Hor [q [Hq [H0 [H1 _]]]]].
    rewrite Hor. exists q. auto.
Qed.

Lemma Forall_remove (P : string * entry -> Prop) k (s : JsMap.t entry) :
  Forall P s -> Forall P (JsMap.remove k s).
Proof.
  induction s as [|[k0 e0] r IH]; simpl; intros H; [constructor|].
  inversion H; subst. destruct (String.eqb k k0); [assumption|].
  constructor; [assumption | now apply IH].
Qed.

Lemma Forall_set (P : string * entry -> Prop) k e (s : JsMap.t entry) :
  P (k, e) -> Forall P s -> Forall P (JsMap.set k e s).
Proof.
  intros He. induction s as [|[k0 e0] r IH]; simpl; intros H.
  - constructor; [exact He | constructor].
  - inversion H; subst. destruct (String.eqb k k0).
    + constructor; assumption.
    + constructor; [assumption | now apply IH].
Qed.

Lemma Forall_filter (P : string * entry -> Prop) f (s : JsMap.t entry) :
  Forall P s -> Forall P (filter f s).
Proof.
  rewrite !Forall_forall. intros H x Hx. apply filter_In in Hx. now apply H.
Qed.

Lemma Forall_evict (P : string * entry -> Prop) (s : JsMap.t entry) now :
  Forall P s -> Forall P (evict s now).
Proof.
  intros H. destruct (CacheFacts.evict_cases s now) as [-> | [k [_ [_ ->]]]];
    [exact H | now apply Forall_remove].
Qed.

Lemma size_remove_le k (s : JsMap.t entry) :
  (JsMap.size (JsMap.remove k s) <= JsMap.size s)%nat.
Proof.
  destruct (JsMap.has k s) eqn:E.
  - pose proof (JsMapFacts.size_remove _ _ E). lia.
  - rewrite (JsMapFacts.size_remove_absent _ _ E). lia.
Qed.

Lemma within_exec c op last :
  1 <= max c ->
  Trace.within c last ->
  Trace.clock_advances last [op] ->
  Trace.within (exec c op)
         (match op with CallSet _ _ _ _ now_stamp _ => now_stamp
                   | _ => last end).
Proof.
  intros Hmax [Hsize Hall] Hop. unfold Trace.within. rewrite max_exec.
  destruct op; simpl in Hop; unfold exec.
  - destruct Hop as [Hkey [Hlast [Hscan _]]].
    assert (Hall' : Forall (fun ke : string * entry =>
                     fst ke <> ""%string /\ timestamp (snd ke) <= now_stamp)
                   (store c)).
    { eapply Forall_impl; [|exact Hall]. simpl. intros x [? ?]. split; [auto | lia]. }
    split.
    + destruct (Z.ltb_spec (Z.of_nat (JsMap.size (store c))) (max c)) as [Hroom|Hfull].
      * unfold exec. rewrite CacheFacts.store_set, JsMapFacts.size_set.
        destruct (Z.geb_spec (Z.of_nat (JsMap.size (store c))) (max c)); [lia|].
        destruct (JsMap.has key (store c)); lia.
      * unfold exec. apply set_size_bound_when_older; auto.
        -- intros Hin. rewrite Forall_forall in Hall.
           unfold JsMap.keys in Hin. apply in_map_iff in Hin.
           destruct Hin as [x [Hx Hin]]. destruct (Hall x Hin) as [Hne _].
           congruence.
        -- destruct (store c) as [|x r] eqn:Es; [simpl in *; lia|].
           constructor. inversion Hall; subst. simpl in *. lia.
    + unfold exec. rewrite CacheFacts.store_set. apply Forall_set.
      * simpl. split; [exact Hkey | lia].
      * destruct (_ >=? _); [now apply Forall_evict | exact Hall'].
  - unfold get. destruct (JsMap.get key (store c)); simpl; [|split; [exact Hsize | exact Hall]].
    destruct (now >? expiry e); simpl; [|split; [exact Hsize | exact Hall]].
    split; [pose proof (size_remove_le key (store c)); lia
           | now apply Forall_remove].
  - unfold has. destruct (JsMap.get key (store c)); simpl; [|split; [exact Hsize | exact Hall]].
    destruct (now >? expiry e); simpl; [|split; [exact Hsize | exact Hall]].
    split; [pose proof (size_remove_le key (store c)); lia
           | now apply Forall_remove].
  - unfold del, JsMap.delete. destruct (JsMap.has key (store c)); simpl;
      (split; [pose proof (size_remove_le key (store c)); lia
              | now apply Forall_remove]).
  - split; [simpl; lia | constructor].
  - unfold values. cbn [snd store with_store].
    split; [|now apply Forall_filter].
    unfold JsMap.size in *.
    pose proof (filter_length_le
                  (fun ke => negb (expired now (snd ke))) (store c)). lia.
  - unfold prune. destruct (0 <? _)%nat; simpl;
      (split; [|now apply Forall_filter]); unfold JsMap.size in *;
      pose proof (filter_length_le
                    (fun ke => negb (expired now (snd ke))) (store c)); lia.
Qed.

Lemma within_run ops : forall c last,
  1 <= max c ->
  Trace.within c last ->
  Trace.clock_advances last ops ->
  Z.of_nat (JsMap.size (store (run c ops))) <= max c.
Proof.
  induction ops as [|op ops IH]; intros c last Hmax Hin Hops.
  - exact (proj1 Hin).
  - simpl. fold (run (exec c op) ops).
    rewrite <- (max_exec c op).
    assert (Hone : Trace.clock_advances last [op]).
    { destruct op; simpl in *; tauto. }
    pose proof (within_exec c op last Hmax Hin Hone) as Hnext.
    eapply IH; [now rewrite max_exec | exact Hnext|].
    destruct op; simpl in *; tauto.
Qed.

(** X11. The capacity bound the eviction is meant to give, under the
    conditions in which it works. Take a cache built with a capacity of
    at least one and any sequence of method calls in which every [set]
    has a non-empty key and reads its clock strictly after the
    [timestamp] of every earlier [set]. Then the number of entries never
    exceeds [max]. *)
Theorem size_bounded_when_clock_advances :
  forall (o : options) (ops : list call) (last : Z),
    1 <= max (new o) ->
    Trace.clock_advances last ops ->
    Z.of_nat (size (getStats (run (new o) ops))) <= max (new o).
Proof.
  intros o ops last Hmax Hops.
  change (Z.of_nat (JsMap.size (store (run (new o) ops))) <= max (new o)).
  apply (within_run ops (new o) last Hmax); [|exact Hops].
  split; [|constructor].
  assert (Hz : Z.of_nat (JsMap.size (store (new o))) = 0) by reflexivity.
  lia.
Qed.

Lemma size_bounded_when_clock_advances_witness :
  Z.of_nat (size (getStats (run (new (mkOptions None (Some 1)))
     [CallSet "a" (Js.Number (Js.of_Z 1)) None 1000 1000 1000;
      CallSet "b" (Js.Number (Js.of_Z 2)) None 1001 1001 1001])))
  <= max (new (mkOptions None (Some 1))).
Proof.
  apply (size_bounded_when_clock_advances (mkOptions None (Some 1))
           [CallSet "a" (Js.Number (Js.of_Z 1)) None 1000 1000 1000;
            CallSet "b" (Js.Number (Js.of_Z 2)) None 1001 1001 1001] 0).
  - simpl. lia.
  - simpl. repeat split; try lia; discriminate.
Defined.

End CacheRuns.

(* ------------------------------------------------------------------ *)
(** ** The price resolver: the remaining paths *)

Section ResolverPaths.
Import Cache MarketDataService.

(** The result of [getPrice] when the lookup misses and the primary
    provider answers. *)
Lemma getPrice_primary_result svc pc symbol clk p :
  fst (Cache.has pc (cacheKey symbol) (at_get clk)) = false ->
  getCurrentPrice (primaryProvider svc) symbol = inl p ->
  getPrice svc pc symbol clk =
    (inl p,
     snd (Cache.set (snd (Cache.get pc (cacheKey symbol) (at_get clk)))
                    (cacheKey symbol) p None
                    (at_scan clk) (at_stamp clk) (at_exp clk)),
     [ProviderCall Primary symbol]).
Proof.
  intros Hmiss Hprim.
  unfold getPrice. rewrite (getPrice_after_miss pc symbol clk Hmiss).
  simpl Js.truthy. cbv iota. now rewrite Hprim.
Qed.

(** X12. Primary success. If the lookup misses and the primary provider
    fulfils with [p] (truthy or not), [getPrice] fulfils with [p], stores
    [p] under the cache key with the default TTL of the cache, counts one
    [set], and the only provider call is the one to the primary: the
    fallback is not consulted. *)
Theorem getPrice_primary_success :
  forall (svc : MarketDataService.t) (pc : Cache.t) (symbol : string)
         (clk : clock) (p : Js.value),
    fst (Cache.has pc (cacheKey symbol) (at_get clk)) = false ->
    getCurrentPrice (primaryProvider svc) symbol = inl p ->
    let r := getPrice svc pc symbol clk in
    fst (fst r) = inl p /\
    snd r = [ProviderCall Primary symbol] /\
    JsMap.get (cacheKey symbol) (store (snd (fst r))) =
      Some (mkEntry p (at_stamp clk) (at_exp clk + ttl pc)) /\
    sets (stats (snd (fst r))) = S (sets (stats pc)).
Proof.
  intros svc pc symbol clk p Hmiss Hprim r.
  unfold r. rewrite (getPrice_primary_result svc pc symbol clk p Hmiss Hprim).
  cbn [fst snd]. repeat split.
  - rewrite CacheFacts.store_set, JsMapFacts.get_set_same.
    now rewrite CacheFacts.ttl_get.
  - cbn [Cache.set snd stats with_stats incr_sets sets with_store].
    now rewrite CacheFacts.sets_get.
Qed.

Lemma getPrice_primary_success_witness :
  let svc := mkService (mkProvider (fun _ => inl (Js.Number (Js.of_Z 0))))
                       None in
  let r := getPrice svc priceCache "BTC" (mkClock 5 5 5 5) in
  fst (fst r) = inl (Js.Number (Js.of_Z 0)) /\
  snd r = [ProviderCall Primary "BTC"].
Proof.
  cbv zeta.
  destruct (getPrice_primary_success
              (mkService (mkProvider (fun _ => inl (Js.Number (Js.of_Z 0))))
                         None)
              priceCache "BTC" (mkClock 5 5 5 5) (Js.Number (Js.of_Z 0))
              eq_refl eq_refl) as [H1 [H2 _]].
  exact (conj H1 H2).
Defined.

(** X13. No fallback configured. If the lookup misses, the primary
    provider fails and no fallback provider is configured, [getPrice]
    rejects with the primary's own error, unchanged; the primary was
    called once, its message was logged as a warning, no [set] happened
    and the key is absent from the cache. *)
Theorem getPrice_no_fallback :
  forall (svc : MarketDataService.t) (pc : Cache.t) (symbol : string)
         (clk : clock) (error : Errors.error),
    JsMap.wf (store pc) ->
    fst (Cache.has pc (cacheKey symbol) (at_get clk)) = false ->
    getCurrentPrice (primaryProvider svc) symbol = inr error ->
    fallbackProviderInstance svc = None ->
    let r := getPrice svc pc symbol clk in
    fst (fst r) = inr error /\
    snd r =
      [ProviderCall Primary symbol;
       LogWarn ("Primary provider failed for " ++ symbol ++ " price: "
                ++ Errors.message error)] /\
    sets (stats (snd (fst r))) = sets (stats pc) /\
    JsMap.get (cacheKey symbol) (store (snd (fst r))) = None.
Proof.
  intros svc pc symbol clk err Hwf Hmiss Hprim Hfb r.
  assert (H : r =
    (inr err, snd (Cache.get pc (cacheKey symbol) (at_get clk)),
     [ProviderCall Primary symbol;
      LogWarn ("Primary provider failed for " ++ symbol ++ " price: "
               ++ Errors.message err)])).
  { unfold r, getPrice. rewrite (getPrice_after_miss pc symbol clk Hmiss).
    simpl Js.truthy. cbv iota. now rewrite Hprim, Hfb. }
  rewrite H. cbn [fst snd]. repeat split.
  - apply CacheFacts.sets_get.
  - now apply CacheFacts.get_miss_absent.
Qed.

Lemma getPrice_no_fallback_witness :
  let svc := mkService
               (mkProvider (fun _ => inr (Errors.Error "socket hang up")))
               None in
  fst (fst (getPrice svc priceCache "BTC" (mkClock 5 5 5 5))) =
  inr (Errors.Error "socket hang up").
Proof.
  cbv zeta.
  destruct (getPrice_no_fallback
              (mkService
                 (mkProvider (fun _ => inr (Errors.Error "socket hang up")))
                 None)
              priceCache "BTC" (mkClock 5 5 5 5)
              (Errors.Error "socket hang up")
              (CacheFacts.new_wf _) eq_refl eq_refl eq_refl) as [H _].
  exact H.
Defined.

(** What [getPrice] does to the cache is a [get], followed by a [set] of
    the fulfilment value when a provider was asked and answered. *)
Lemma getPrice_cache_effect svc pc symbol clk :
  let r := getPrice svc pc symbol clk in
  (snd (fst r) = Cache.exec pc (CallGet (cacheKey symbol) (at_get clk)) /\
   (provider_calls (snd r) = [] \/ exists e, fst (fst r) = inr e)) \/
  (exists p,
     fst (fst r) = inl p /\
     provider_calls (snd r) <> [] /\
     snd (fst r) =
       Cache.exec
         (Cache.exec pc (CallGet (cacheKey symbol) (at_get clk)))
         (CallSet (cacheKey symbol) p None
                  (at_scan clk) (at_stamp clk) (at_exp clk))).
Proof.
  unfold getPrice. cbn [Cache.exec].
  destruct (Cache.get pc (cacheKey symbol) (at_get clk)) as [cached pc1].
  cbn [snd].
  destruct (Js.truthy cached).
  - left. split; [reflexivity | now left].
  - destruct (getCurrentPrice (primaryProvider svc) symbol) as [p|e1].
    + right. exists p. repeat split. discriminate.
    + destruct (fallbackProviderInstance svc) as [fb|].
      * destruct (getCurrentPrice fb symbol) as [p|e2].
        -- right. exists p. repeat split. discriminate.
        -- left. split; [reflexivity | right; eexists; reflexivity].
      * left. split; [reflexivity | right; eexists; reflexivity].
Qed.

(** X14. Call discipline of [getPrice], on every input. The provider
    calls of one [getPrice] are none, the primary alone, or the primary
    followed by the fallback, each for the requested symbol: no provider
    is called twice, and the fallback is called only after the primary
    failed. A rejection leaves [sets] unchanged, and a value fetched from
    a provider is in the cache under the key when [getPrice] returns. *)
Theorem getPrice_call_discipline :
  forall (svc : MarketDataService.t) (pc : Cache.t) (symbol : string)
         (clk : clock),
    let r := getPrice svc pc symbol clk in
    (provider_calls (snd r) = [] \/
     provider_calls (snd r) = [ProviderCall Primary symbol] \/
     provider_calls (snd r) =
       [ProviderCall Primary symbol; ProviderCall Fallback symbol]) /\
    (In (ProviderCall Fallback symbol) (snd r) ->
     exists e, getCurrentPrice (primaryProvider svc) symbol = inr e) /\
    (forall e, fst (fst r) = inr e ->
       sets (stats (snd (fst r))) = sets (stats pc)) /\
    (forall p, fst (fst r) = inl p -> provider_calls (snd r) <> [] ->
       JsMap.get (cacheKey symbol) (store (snd (fst r))) =
       Some (mkEntry p (at_stamp clk) (at_exp clk + ttl pc))).
Proof.
  intros svc pc symbol clk r. unfold r, getPrice.
  pose proof (CacheFacts.ttl_get pc (cacheKey symbol) (at_get clk)) as Httl.
  pose proof (CacheFacts.sets_get pc (cacheKey symbol) (at_get clk)) as Hsets.
  destruct (Cache.get pc (cacheKey symbol) (at_get clk)) as [cached pc1].
  cbn [snd] in Httl, Hsets.
  destruct (Js.truthy cached).
  - cbn [fst snd provider_calls filter is_provider_call].
    split; [now left|]. split.
    + intros [H | []]. discriminate.
    + split; [discriminate|]. intros p _ H. now contradiction H.
  - destruct (getCurrentPrice (primaryProvider svc) symbol) as [p|e1].
    + cbn [fst snd provider_calls filter is_provider_call].
      split; [right; now left|]. split.
      * intros [H | []]. discriminate.
      * split; [discriminate|]. intros p' Hp _. injection Hp as <-.
        rewrite CacheFacts.store_set, JsMapFacts.get_set_same.
        now rewrite Httl.
    + destruct (fallbackProviderInstance svc) as [fb|].
      * destruct (getCurrentPrice fb symbol) as [p|e2];
          cbn [fst snd provider_calls filter is_provider_call].
        -- split; [right; now right|]. split; [intros _; now exists e1|].
           split; [discriminate|]. intros p' Hp _. injection Hp as <-.
           rewrite CacheFacts.store_set, JsMapFacts.get_set_same.
           now rewrite Httl.
        -- split; [right; now right|]. split; [intros _; now exists e1|].
           split; [intros _ _; exact Hsets | discriminate].
      * cbn [fst snd provider_calls filter is_provider_call].
        split; [right; now left|]. split; [intros _; now exists e1|].
        split; [intros _ _; exact Hsets | discriminate].
Qed.

(** X15. Symbols that differ only by case share one cache entry. If
    [toLowerCase] maps two symbols to the same string and a [getPrice]
    for the first one fetched a truthy price from the primary provider,
    a following [getPrice] for the second one, looked up before the entry
    expires, is served that price from the cache and calls no provider. *)
Theorem getPrice_case_insensitive :
  forall (svc svc' : MarketDataService.t) (pc : Cache.t)
         (symbol symbol' : string) (clk clk' : clock) (p : Js.value),
    Js.toLowerCase symbol = Js.toLowerCase symbol' ->
    fst (Cache.has pc (cacheKey symbol) (at_get clk)) = false ->
    getCurrentPrice (primaryProvider svc) symbol = inl p ->
    Js.truthy p = true ->
    at_get clk' <= at_exp clk + ttl pc ->
    let pc1 := snd (fst (getPrice svc pc symbol clk)) in
    fst (fst (getPrice svc' pc1 symbol' clk')) = inl p /\
    snd (getPrice svc' pc1 symbol' clk') =
      [LogDebug ("Using cached price for " ++ symbol')].
Proof.
  intros svc svc' pc symbol symbol' clk clk' p Hlow Hmiss Hprim Htr Hnow pc1.
  assert (Hst : JsMap.get (cacheKey symbol) (store pc1) =
                Some (mkEntry p (at_stamp clk) (at_exp clk + ttl pc))).
  { unfold pc1.
    rewrite (getPrice_primary_result svc pc symbol clk p Hmiss Hprim).
    cbn [fst snd].
    rewrite CacheFacts.store_set, JsMapFacts.get_set_same.
    now rewrite CacheFacts.ttl_get. }
  assert (Hkey : cacheKey symbol = cacheKey symbol').
  { unfold cacheKey. now rewrite Hlow. }
  rewrite Hkey in Hst.
  rewrite (getPrice_hit_result svc' pc1 symbol' clk' _ Hst Hnow Htr).
  split; reflexivity.
Qed.

Lemma getPrice_case_insensitive_witness :
  let svc := mkService (mkProvider (fun _ => inl (Js.Number (Js.of_Z 7))))
                       None in
  let pc1 := snd (fst (getPrice svc priceCache "BTC" (mkClock 5 5 5 5))) in
  fst (fst (getPrice svc pc1 "btc" (mkClock 6 6 6 6))) =
  inl (Js.Number (Js.of_Z 7)).
Proof.
  cbv zeta.
  destruct (getPrice_case_insensitive
              (mkService (mkProvider (fun _ => inl (Js.Number (Js.of_Z 7))))
                         None)
              (mkService (mkProvider (fun _ => inl (Js.Number (Js.of_Z 7))))
                         None)
              priceCache "BTC" "btc" (mkClock 5 5 5 5) (mkClock 6 6 6 6)
              (Js.Number (Js.of_Z 7))
              eq_refl eq_refl eq_refl eq_refl ltac:(simpl; lia)) as [H _].
  exact H.
Defined.

End ResolverPaths.

(* ------------------------------------------------------------------ *)
(** ** The price cache under sequences of [getPrice] *)

Section PriceCacheBound.
Import Cache MarketDataService.

Lemma within_mono c last last' :
  last <= last' -> Trace.within c last -> Trace.within c last'.
Proof.
  intros Hle [Hs Hall]. split; [exact Hs|].
  eapply Forall_impl; [|exact Hall]. simpl. intros x [? ?]. split; [auto | lia].
Qed.

Lemma cacheKey_nonempty symbol : cacheKey symbol <> ""%string.
Proof. unfold cacheKey. simpl. discriminate. Qed.

Lemma within_price_step pc q last :
  1 <= max pc ->
  Trace.within pc last ->
  last < at_scan (snd q) ->
  at_scan (snd q) <= at_stamp (snd q) ->
  Trace.within (Trace.price_step pc q) (at_stamp (snd q)) /\
  max (Trace.price_step pc q) = max pc.
Proof.
  destruct q as [[svc symbol] clk]. cbn [snd Trace.price_step].
  intros Hmax Hin Hlt Hle.
  pose proof (within_exec pc (CallGet (cacheKey symbol) (at_get clk)) last
                Hmax Hin I) as Hget.
  cbv iota in Hget.
  destruct (getPrice_cache_effect svc pc symbol clk)
    as [[Heq _] | [p [_ [_ Heq]]]]; rewrite Heq.
  - split; [|apply max_exec]. apply (within_mono _ last); [lia | exact Hget].
  - split; [|now rewrite !max_exec].
    apply (within_exec _ (CallSet (cacheKey symbol) p None
                            (at_scan clk) (at_stamp clk) (at_exp clk)) last).
    + now rewrite max_exec.
    + exact Hget.
    + simpl. repeat split; auto. apply cacheKey_nonempty.
Qed.

Lemma within_price_run calls : forall pc last,
  1 <= max pc ->
  Trace.within pc last ->
  Trace.price_clock_advances last calls ->
  Z.of_nat (JsMap.size (store (Trace.price_run pc calls))) <= max pc.
Proof.
  induction calls as [|q calls IH]; intros pc last Hmax Hin Hadv.
  - exact (proj1 Hin).
  - cbn [Trace.price_run fold_left]. fold (Trace.price_run (Trace.price_step pc q) calls).
    assert (Hq : last < at_scan (snd q) /\ at_scan (snd q) <= at_stamp (snd q)
                 /\ Trace.price_clock_advances (at_stamp (snd q)) calls).
    { destruct q as [[svc symbol] clk]. exact Hadv. }
    destruct Hq as [Hlt [Hle Hrest]].
    destruct (within_price_step pc q last Hmax Hin Hlt Hle) as [Hnext Hm].
    rewrite <- Hm. apply (IH _ (at_stamp (snd q))); [lia | exact Hnext | exact Hrest].
Qed.

(** X16. The price cache stays within its capacity of 100 entries over
    any sequence of [getPrice] calls, whatever the providers answer, as
    long as each call reads the clock for its [set] strictly after the
    [timestamp] reading of the call before it. (The cache keys all start
    with ["price:"], so the empty-key gap of the eviction cannot be
    reached from [getPrice].) *)
Theorem priceCache_bounded :
  forall (calls : list Trace.price_call) (last : Z),
    Trace.price_clock_advances last calls ->
    Z.of_nat (size (getStats (Trace.price_run priceCache calls))) <= 100.
Proof.
  intros calls last Hadv.
  change (Z.of_nat (JsMap.size (store (Trace.price_run priceCache calls)))
          <= max priceCache).
  apply (within_price_run calls priceCache last);
    [vm_compute; discriminate | | exact Hadv].
  split; [vm_compute; discriminate | constructor].
Qed.

Lemma priceCache_bounded_witness :
  let svc := mkService (mkProvider (fun _ => inl (Js.Number (Js.of_Z 1))))
                       None in
  Z.of_nat (size (getStats (Trace.price_run priceCache
     [(svc, "BTC", mkClock 1 1 1 1); (svc, "ETH", mkClock 2 2 2 2)]%string)))
  <= 100.
Proof.
  cbv zeta.
  apply (priceCache_bounded
           [(mkService (mkProvider (fun _ => inl (Js.Number (Js.of_Z 1)))) None,
             "BTC", mkClock 1 1 1 1);
            (mkService (mkProvider (fun _ => inl (Js.Number (Js.of_Z 1)))) None,
             "ETH", mkClock 2 2 2 2)]%string 0).
  simpl. repeat split; lia.
Defined.

End PriceCacheBound.

(* ------------------------------------------------------------------ *)
(** ** Historical prices, market data and cache invalidation *)

Section ServiceCaches.
Import Cache.

Lemma get_miss_pair c key now :
  fst (Cache.has c key now) = false ->
  Cache.get c key now = (Js.Undefined, snd (Cache.get c key now)).
Proof.
  intros H. apply CacheFacts.get_miss in H.
  destruct (Cache.get c key now) as [r c1]. simpl in *. now subst.
Qed.

Lemma append_cancel_l (a x y : string) : (a ++ x = a ++ y)%string -> x = y.
Proof.
  induction a as [|ch a IH]; simpl; intros H; [exact H|].
  injection H as H. now apply IH.
Qed.

Lemma historicalKey_timeframe symbol tf tf' :
  MarketData.historicalKey symbol tf = MarketData.historicalKey symbol tf' ->
  tf = tf'.
Proof.
  unfold MarketData.historicalKey. intros H.
  apply append_cancel_l in H. apply append_cancel_l in H.
  now apply append_cancel_l in H.
Qed.

Lemma get_None_remove k k0 (s : JsMap.t entry) :
  JsMap.get k s = None -> JsMap.get k (JsMap.remove k0 s) = None.
Proof.
  intros H. apply JsMapFacts.get_None_iff. apply JsMapFacts.get_None_iff in H.
  intros Hin. apply H. eapply JsMapFacts.keys_remove_incl. exact Hin.
Qed.

Lemma get_None_evict k (s : JsMap.t entry) now :
  JsMap.get k s = None -> JsMap.get k (evict s now) = None.
Proof.
  intros H. destruct (CacheFacts.evict_cases s now) as [-> | [k0 [_ [_ ->]]]];
    [exact H | now apply get_None_remove].
Qed.

(** A key that is absent stays absent through a [get] and a [set] of
    other keys. *)
Lemma absent_after_get_set c key key' v a now t0 t1 t2 :
  key' <> key ->
  JsMap.get key' (store c) = None ->
  JsMap.get key'
    (store (snd (Cache.set (snd (Cache.get c key now)) key v a t0 t1 t2)))
  = None.
Proof.
  intros Hne Habs. rewrite CacheFacts.store_set.
  rewrite JsMapFacts.get_set_other by congruence.
  assert (H1 : JsMap.get key' (store (snd (Cache.get c key now))) = None).
  { unfold Cache.get. destruct (JsMap.get key (store c)); simpl; [|exact Habs].
    destruct (now >? expiry e); simpl; [now apply get_None_remove | exact Habs]. }
  destruct (_ >=? _); [now apply get_None_evict | exact H1].
Qed.

(** X17. Historical prices are cached per symbol and timeframe. If the
    lookup for [(symbol, tf)] misses and the primary provider fulfils
    with truthy data [d], then [getHistoricalPrices] fulfils with [d]
    after that single provider call; a following call for the same symbol
    and timeframe, looked up before the entry expires, is served [d] from
    the cache without any provider call; but a following call for another
    timeframe [tf'] that had no entry asks the primary provider for
    [tf']. An omitted timeframe is ["30d"]. *)
Theorem getHistoricalPrices_per_timeframe :
  forall (svc svc' : MarketData.t) (hc : Cache.t) (symbol tf tf' : string)
         (clk clk' : MarketDataService.clock) (d : Js.value),
    fst (Cache.has hc (MarketData.historicalKey symbol tf)
                   (MarketDataService.at_get clk)) = false ->
    MarketData.provider_getHistoricalPrices
      (MarketData.primaryProvider svc) symbol tf = inl d ->
    Js.truthy d = true ->
    MarketDataService.at_get clk' <= MarketDataService.at_exp clk + ttl hc ->
    let r := MarketData.getHistoricalPrices svc hc symbol (Some tf) clk in
    let hc1 := snd (fst r) in
    fst (fst r) = inl d /\
    snd r = [MarketData.ProviderCall MarketDataService.Primary
               "getHistoricalPrices" [symbol; tf]] /\
    fst (fst (MarketData.getHistoricalPrices svc' hc1 symbol (Some tf) clk'))
      = inl d /\
    MarketData.provider_calls
      (snd (MarketData.getHistoricalPrices svc' hc1 symbol (Some tf) clk'))
      = [] /\
    (tf' <> tf ->
     JsMap.get (MarketData.historicalKey symbol tf') (store hc) = None ->
     exists rest,
       snd (MarketData.getHistoricalPrices svc' hc1 symbol (Some tf') clk') =
       MarketData.ProviderCall MarketDataService.Primary
         "getHistoricalPrices" [symbol; tf'] :: rest) /\
    MarketData.getHistoricalPrices svc hc symbol None clk =
    MarketData.getHistoricalPrices svc hc symbol (Some "30d"%string) clk.
Proof.
  intros svc svc' hc symbol tf tf' clk clk' d Hmiss Hprim Htr Hnow r hc1.
  set (key := MarketData.historicalKey symbol tf) in *.
  assert (H1 : r =
    (inl d,
     snd (Cache.set (snd (Cache.get hc key (MarketDataService.at_get clk)))
            key d None (MarketDataService.at_scan clk)
            (MarketDataService.at_stamp clk) (MarketDataService.at_exp clk)),
     [MarketData.ProviderCall MarketDataService.Primary
        "getHistoricalPrices" [symbol; tf]])).
  { unfold r, MarketData.getHistoricalPrices. fold key.
    rewrite (get_miss_pair hc key _ Hmiss).
    simpl Js.truthy. cbv iota. now rewrite Hprim. }
  assert (Hst : JsMap.get key (store hc1) =
                Some (mkEntry d (MarketDataService.at_stamp clk)
                              (MarketDataService.at_exp clk + ttl hc))).
  { unfold hc1. rewrite H1. cbn [fst snd].
    rewrite CacheFacts.store_set, JsMapFacts.get_set_same.
    now rewrite CacheFacts.ttl_get. }
  assert (H2 : MarketData.getHistoricalPrices svc' hc1 symbol (Some tf) clk' =
    (inl d, with_stats hc1 (incr_hits (stats hc1)),
     [MarketData.LogDebug ("Using cached historical data for " ++ symbol
                           ++ " (" ++ tf ++ ")")])).
  { unfold MarketData.getHistoricalPrices, Cache.get. fold key. rewrite Hst.
    cbn [expiry value].
    destruct (Z.gtb_spec (MarketDataService.at_get clk')
                (MarketDataService.at_exp clk + ttl hc)); [lia|].
    now rewrite Htr. }
  split; [now rewrite H1|]. split; [now rewrite H1|].
  split; [now rewrite H2|]. split; [now rewrite H2|].
  split; [|reflexivity].
  intros Hne Habs.
  assert (Hkeys : MarketData.historicalKey symbol tf' <> key).
  { intros Heq. apply Hne. eapply historicalKey_timeframe. exact Heq. }
  assert (Habs1 : JsMap.get (MarketData.historicalKey symbol tf') (store hc1)
                  = None).
  { unfold hc1. rewrite H1. cbn [fst snd].
    now apply absent_after_get_set. }
  unfold MarketData.getHistoricalPrices, Cache.get. rewrite Habs1.
  cbn [Js.truthy].
  destruct (MarketData.provider_getHistoricalPrices
              (MarketData.primaryProvider svc') symbol tf') as [d'|e1].
  - eexists. reflexivity.
  - destruct (MarketData.fallbackProviderInstance svc') as [fb|].
    + destruct (MarketData.provider_getHistoricalPrices fb symbol tf');
        eexists; reflexivity.
    + eexists. reflexivity.
Qed.

Lemma getHistoricalPrices_per_timeframe_witness :
  let p := MarketData.mkProvider
             (fun _ => inl (Js.Number (Js.of_Z 1)))
             (fun _ _ => inl (Js.Obj 1%positive))
             (fun _ => inl (Js.Obj 2%positive)) in
  let svc := MarketData.mkService p None in
  let hc := MarketData.historicalDataCache MarketData.initial_caches in
  let clk := MarketDataService.mkClock 5 5 5 5 in
  let hc1 := snd (fst (MarketData.getHistoricalPrices svc hc "BTC"
                         (Some "7d"%string) clk)) in
  MarketData.provider_calls
    (snd (MarketData.getHistoricalPrices svc hc1 "BTC" (Some "7d"%string) clk))
  = [].
Proof.
  cbv zeta.
  pose proof (getHistoricalPrices_per_timeframe
    (MarketData.mkService
       (MarketData.mkProvider
          (fun _ => inl (Js.Number (Js.of_Z 1)))
          (fun _ _ => inl (Js.Obj 1%positive))
          (fun _ => inl (Js.Obj 2%positive))) None)
    (MarketData.mkService
       (MarketData.mkProvider
          (fun _ => inl (Js.Number (Js.of_Z 1)))
          (fun _ _ => inl (Js.Obj 1%positive))
          (fun _ => inl (Js.Obj 2%positive))) None)
    (MarketData.historicalDataCache MarketData.initial_caches)
    "BTC" "7d" "30d"
    (MarketDataService.mkClock 5 5 5 5) (MarketDataService.mkClock 5 5 5 5)
    (Js.Obj 1%positive) eq_refl eq_refl eq_refl ltac:(simpl; lia)) as H.
  cbv zeta in H. destruct H as [_ [_ [_ [H _]]]]. exact H.
Defined.

(** X18. Call discipline of [getMarketData], on every input: its
    provider calls are none, the primary alone, or the primary followed
    by the fallback, each for the requested symbol; the fallback is
    called only after the primary failed; when both fail the rejection is
    the fixed [AppError] of status 500 for that symbol; a rejection
    leaves [sets] unchanged, and data fetched from a provider is in the
    market-data cache under the key when the call returns. *)
Theorem getMarketData_call_discipline :
  forall (svc : MarketData.t) (mc : Cache.t) (symbol : string)
         (clk : MarketDataService.clock),
    let r := MarketData.getMarketData svc mc symbol clk in
    let call role := MarketData.ProviderCall role "getMarketData" [symbol] in
    (MarketData.provider_calls (snd r) = [] \/
     MarketData.provider_calls (snd r) = [call MarketDataService.Primary] \/
     MarketData.provider_calls (snd r) =
       [call MarketDataService.Primary; call MarketDataService.Fallback]) /\
    (In (call MarketDataService.Fallback) (snd r) ->
     exists e, MarketData.provider_getMarketData
                 (MarketData.primaryProvider svc) symbol = inr e) /\
    (forall e, fst (fst r) = inr e ->
       sets (stats (snd (fst r))) = sets (stats mc) /\
       (In (call MarketDataService.Fallback) (snd r) ->
        e = Errors.AppError
              ("Failed to get market data for " ++ symbol
               ++ " from any provider") 500 "INTERNAL_ERROR")) /\
    (forall d, fst (fst r) = inl d ->
       MarketData.provider_calls (snd r) <> [] ->
       JsMap.get (MarketData.marketDataKey symbol) (store (snd (fst r))) =
       Some (mkEntry d (MarketDataService.at_stamp clk)
                       (MarketDataService.at_exp clk + ttl mc))).
Proof.
  intros svc mc symbol clk r call. unfold r, call, MarketData.getMarketData.
  set (key := MarketData.marketDataKey symbol).
  pose proof (CacheFacts.ttl_get mc key (MarketDataService.at_get clk)) as Httl.
  pose proof (CacheFacts.sets_get mc key (MarketDataService.at_get clk)) as Hsets.
  destruct (Cache.get mc key (MarketDataService.at_get clk)) as [cached mc1].
  cbn [snd] in Httl, Hsets.
  destruct (Js.truthy cached).
  - cbn [fst snd MarketData.provider_calls filter MarketData.is_provider_call].
    split; [now left|]. split.
    + intros [H | []]. discriminate.
    + split; [discriminate|]. intros d _ H. now contradiction H.
  - destruct (MarketData.provider_getMarketData
                (MarketData.primaryProvider svc) symbol) as [d|e1].
    + cbn [fst snd MarketData.provider_calls filter
           MarketData.is_provider_call].
      split; [right; now left|]. split.
      * intros [H | []]. discriminate.
      * split; [discriminate|]. intros d' Hd _. injection Hd as <-.
        rewrite CacheFacts.store_set, JsMapFacts.get_set_same.
        now rewrite Httl.
    + destruct (MarketData.fallbackProviderInstance svc) as [fb|].
      * destruct (MarketData.provider_getMarketData fb symbol) as [d|e2];
          cbn [fst snd MarketData.provider_calls filter
               MarketData.is_provider_call].
        -- split; [right; now right|]. split; [intros _; now exists e1|].
           split; [discriminate|]. intros d' Hd _. injection Hd as <-.
           rewrite CacheFacts.store_set, JsMapFacts.get_set_same.
           now rewrite Httl.
        -- split; [right; now right|]. split; [intros _; now exists e1|].
           split; [|discriminate].
           intros e He. injection He as <-. split; [exact Hsets | reflexivity].
      * cbn [fst snd MarketData.provider_calls filter
             MarketData.is_provider_call].
        split; [right; now left|]. split; [intros _; now exists e1|].
        split; [|discriminate].
        intros e He. split; [exact Hsets|].
        intros [H | [H | []]]; discriminate.
Qed.

End ServiceCaches.

(* ------------------------------------------------------------------ *)
(** ** Invalidation *)

Section Invalidation.
Import Cache.

Lemma store_del c k : store (snd (del c k)) = JsMap.remove k (store c).
Proof.
  unfold del, JsMap.delete. destruct (JsMap.has k (store c)); reflexivity.
Qed.

Lemma counters_del c k :
  hits (stats (snd (del c k))) = hits (stats c) /\
  misses (stats (snd (del c k))) = misses (stats c) /\
  sets (stats (snd (del c k))) = sets (stats c).
Proof.
  unfold del, JsMap.delete. destruct (JsMap.has k (store c)); simpl; auto.
Qed.

(** Deleting a list of keys, one [del] after the other. *)
Lemma del_all (g : string -> string) l : forall c,
  JsMap.wf (store c) ->
  let c' := fold_left (fun c tf => snd (del c (g tf))) l c in
  JsMap.wf (store c') /\
  (forall tf, In tf l -> JsMap.get (g tf) (store c') = None) /\
  (forall k, (forall tf, In tf l -> k <> g tf) ->
     JsMap.get k (store c') = JsMap.get k (store c)) /\
  (forall k, JsMap.get k (store c) = None -> JsMap.get k (store c') = None) /\
  hits (stats c') = hits (stats c) /\
  misses (stats c') = misses (stats c) /\
  sets (stats c') = sets (stats c).
Proof.
  induction l as [|tf0 l IH]; intros c Hwf; cbn [fold_left].
  - repeat split; auto. intros tf [].
  - assert (Hwf1 : JsMap.wf (store (snd (del c (g tf0))))).
    { rewrite store_del. now apply JsMapFacts.wf_remove. }
    destruct (IH _ Hwf1) as [H1 [H2 [H3 [H4 [H5 [H6 H7]]]]]].
    destruct (counters_del c (g tf0)) as [C1 [C2 C3]].
    split; [exact H1|]. split; [|split; [|split]].
    + intros tf [<- | Hin]; [|now apply H2].
      apply H4. rewrite store_del. now apply JsMapFacts.get_remove_same.
    + intros k Hk. rewrite H3 by (intros tf Hin; apply Hk; now right).
      rewrite store_del. apply JsMapFacts.get_remove_other.
      apply not_eq_sym. apply Hk. now left.
    + intros k Hk. apply H4. rewrite store_del. now apply get_None_remove.
    + repeat split; congruence.
Qed.

(** X19. [invalidateCache(symbol)] removes the price entry, the
    market-data entry and the historical entries of the five listed
    timeframes for the lower-cased symbol; every other key of the three
    caches is found as before, and no [hits], [misses] or [sets] counter
    changes. *)
Theorem invalidateCache_effect :
  forall (cs : MarketData.caches) (symbol : string),
    JsMap.wf (store (MarketData.priceCache cs)) ->
    JsMap.wf (store (MarketData.marketDataCache cs)) ->
    JsMap.wf (store (MarketData.historicalDataCache cs)) ->
    let cs' := fst (MarketData.invalidateCache cs symbol) in
    let pc := MarketData.priceCache cs in
    let pc' := MarketData.priceCache cs' in
    let mc := MarketData.marketDataCache cs in
    let mc' := MarketData.marketDataCache cs' in
    let hc := MarketData.historicalDataCache cs in
    let hc' := MarketData.historicalDataCache cs' in
    JsMap.get (MarketDataService.cacheKey symbol) (store pc') = None /\
    JsMap.get (MarketData.marketDataKey symbol) (store mc') = None /\
    (forall tf, In tf MarketData.invalidated_timeframes ->
       JsMap.get (MarketData.historicalKey symbol tf) (store hc') = None) /\
    (forall k, k <> MarketDataService.cacheKey symbol ->
       JsMap.get k (store pc') = JsMap.get k (store pc)) /\
    (forall k, k <> MarketData.marketDataKey symbol ->
       JsMap.get k (store mc') = JsMap.get k (store mc)) /\
    (forall k,
       (forall tf, In tf MarketData.invalidated_timeframes ->
                   k <> MarketData.historicalKey symbol tf) ->
       JsMap.get k (store hc') = JsMap.get k (store hc)) /\
    (hits (stats pc') = hits (stats pc) /\
     misses (stats pc') = misses (stats pc) /\
     sets (stats pc') = sets (stats pc)) /\
    (hits (stats mc') = hits (stats mc) /\
     misses (stats mc') = misses (stats mc) /\
     sets (stats mc') = sets (stats mc)) /\
    (hits (stats hc') = hits (stats hc) /\
     misses (stats hc') = misses (stats hc) /\
     sets (stats hc') = sets (stats hc)).
Proof.
  intros cs symbol Hp Hm Hh cs' pc pc' mc mc' hc hc'.
  unfold pc', mc', hc', cs', MarketData.invalidateCache.
  cbn [fst MarketData.priceCache MarketData.marketDataCache
       MarketData.historicalDataCache].
  fold pc mc hc.
  destruct (del_all
              (fun tf => ("historical:" ++ Js.toLowerCase symbol ++ ":" ++ tf)%string)
              MarketData.invalidated_timeframes hc Hh)
    as [_ [H2 [H3 [_ HC]]]].
  split; [rewrite store_del; now apply JsMapFacts.get_remove_same|].
  split; [rewrite store_del; now apply JsMapFacts.get_remove_same|].
  split; [exact H2|].
  split; [intros k Hk; rewrite store_del;
          apply JsMapFacts.get_remove_other;
          intros Heq; apply Hk; symmetry; exact Heq|].
  split; [intros k Hk; rewrite store_del;
          apply JsMapFacts.get_remove_other;
          intros Heq; apply Hk; symmetry; exact Heq|].
  split; [exact H3|].
  split; [apply counters_del|]. split; [apply counters_del | exact HC].
Qed.

Lemma invalidateCache_effect_witness :
  let pc := snd (set MarketDataService.priceCache "price:btc"
                     (Js.Number (Js.of_Z 1)) None 0 0 0) in
  let cs := MarketData.mkCaches pc
              (MarketData.marketDataCache MarketData.initial_caches)
              (MarketData.historicalDataCache MarketData.initial_caches) in
  JsMap.get "price:btc" (store pc) <> None /\
  JsMap.get (MarketDataService.cacheKey "BTC")
    (store (MarketData.priceCache (fst (MarketData.invalidateCache cs "BTC"))))
  = None.
Proof.
  cbv zeta. split; [discriminate|].
  pose proof (invalidateCache_effect
           (MarketData.mkCaches
              (snd (set MarketDataService.priceCache "price:btc"
                        (Js.Number (Js.of_Z 1)) None 0 0 0))
              (MarketData.marketDataCache MarketData.initial_caches)
              (MarketData.historicalDataCache MarketData.initial_caches))
           "BTC"
           (CacheFacts.set_wf _ _ _ _ _ _ _ (CacheFacts.new_wf _))
           (CacheFacts.new_wf _) (CacheFacts.new_wf _)) as H.
  cbv zeta in H. exact (proj1 H).
Defined.

Lemma validateTimeframe_iff tf :
  Validators.validateTimeframe (Js.Str tf) = true <->
  In tf MarketData.invalidated_timeframes.
Proof.
  unfold Validators.validateTimeframe, MarketData.invalidated_timeframes,
    Validators.validTimeframes. cbn [Js.truthy negb].
  destruct (String.eqb_spec tf "") as [->|Hne].
  - simpl. split; [discriminate|]. intuition discriminate.
  - cbn [negb]. rewrite existsb_exists. split.
    + intros [x [Hin Hx]]. apply String.eqb_eq in Hx. now subst.
    + intros Hin. exists tf. split; [exact Hin | apply String.eqb_refl].
Qed.

(** X20. Which historical entries an invalidation reaches. A cached
    historical entry of the symbol is removed by [invalidateCache]
    exactly when its timeframe is one that [validateTimeframe] accepts;
    an entry cached under any other timeframe (the service itself
    accepts every timeframe string) survives the invalidation
    unchanged. *)
Theorem invalidateCache_reaches_validated_timeframes :
  forall (cs : MarketData.caches) (symbol tf : string) (e : entry),
    JsMap.wf (store (MarketData.historicalDataCache cs)) ->
    JsMap.get (MarketData.historicalKey symbol tf)
              (store (MarketData.historicalDataCache cs)) = Some e ->
    let hc' := MarketData.historicalDataCache
                 (fst (MarketData.invalidateCache cs symbol)) in
    (Validators.validateTimeframe (Js.Str tf) = true ->
     JsMap.get (MarketData.historicalKey symbol tf) (store hc') = None) /\
    (Validators.validateTimeframe (Js.Str tf) = false ->
     JsMap.get (MarketData.historicalKey symbol tf) (store hc') = Some e).
Proof.
  intros cs symbol tf e Hwf Hget hc'.
  unfold hc', MarketData.invalidateCache.
  cbn [fst MarketData.historicalDataCache].
  destruct (del_all
              (fun tf => ("historical:" ++ Js.toLowerCase symbol ++ ":" ++ tf)%string)
              MarketData.invalidated_timeframes
              (MarketData.historicalDataCache cs) Hwf)
    as [_ [H2 [H3 _]]].
  split.
  - intros Hv. apply validateTimeframe_iff in Hv. exact (H2 tf Hv).
  - intros Hv. rewrite <- Hget. apply H3. intros tf0 Hin Heq.
    apply historicalKey_timeframe in Heq. subst tf0.
    apply validateTimeframe_iff in Hin. congruence.
Qed.

Lemma invalidateCache_reaches_validated_timeframes_witness :
  let hc := snd (set (MarketData.historicalDataCache MarketData.initial_caches)
                     "historical:btc:1w" (Js.Obj 1%positive) None 0 0 0) in
  let cs := MarketData.mkCaches MarketDataService.priceCache
              (MarketData.marketDataCache MarketData.initial_caches) hc in
  Validators.validateTimeframe (Js.Str "1w") = false /\
  JsMap.get (MarketData.historicalKey "BTC" "1w")
    (store (MarketData.historicalDataCache
              (fst (MarketData.invalidateCache cs "BTC"))))
  = Some (mkEntry (Js.Obj 1%positive) 0 3600000).
Proof.
  cbv zeta. split; [reflexivity|].
  pose proof (invalidateCache_reaches_validated_timeframes
           (MarketData.mkCaches MarketDataService.priceCache
              (MarketData.marketDataCache MarketData.initial_caches)
              (snd (set (MarketData.historicalDataCache
                           MarketData.initial_caches)
                        "historical:btc:1w" (Js.Obj 1%positive) None 0 0 0)))
           "BTC" "1w" (mkEntry (Js.Obj 1%positive) 0 3600000)
           (CacheFacts.set_wf _ _ _ _ _ _ _ (CacheFacts.new_wf _))
           eq_refl) as H.
  cbv zeta in H. exact (proj2 H eq_refl).
Defined.

Lemma getPrice_absent_calls_primary svc pc symbol clk :
  JsMap.get (MarketDataService.cacheKey symbol) (store pc) = None ->
  exists rest,
    snd (MarketDataService.getPrice svc pc symbol clk) =
    MarketDataService.ProviderCall MarketDataService.Primary symbol :: rest.
Proof.
  intros Habs. unfold MarketDataService.getPrice, Cache.get. rewrite Habs.
  cbn [Js.truthy].
  destruct (MarketDataService.getCurrentPrice
              (MarketDataService.primaryProvider svc) symbol).
  - eexists. reflexivity.
  - destruct (MarketDataService.fallbackProviderInstance svc) as [fb|].
    + destruct (MarketDataService.getCurrentPrice fb symbol);
        eexists; reflexivity.
    + eexists. reflexivity.
Qed.

(** X21. Invalidation forces a refetch. Right after
    [invalidateCache(symbol)], and right after [clearAllCaches()], a
    [getPrice] for that symbol (any symbol, after a clear) does not use
    the cache: its first action is a call of the primary provider.
    [clearAllCaches] leaves all three stores empty. *)
Theorem getPrice_after_invalidation :
  forall (svc : MarketDataService.t) (cs : MarketData.caches)
         (symbol : string) (clk : MarketDataService.clock),
    JsMap.wf (store (MarketData.priceCache cs)) ->
    (exists rest,
       snd (MarketDataService.getPrice svc
              (MarketData.priceCache (fst (MarketData.invalidateCache cs symbol)))
              symbol clk) =
       MarketDataService.ProviderCall MarketDataService.Primary symbol :: rest) /\
    (exists rest,
       snd (MarketDataService.getPrice svc
              (MarketData.priceCache (fst (MarketData.clearAllCaches cs)))
              symbol clk) =
       MarketDataService.ProviderCall MarketDataService.Primary symbol :: rest) /\
    store (MarketData.priceCache (fst (MarketData.clearAllCaches cs))) = []
    /\
    store (MarketData.marketDataCache (fst (MarketData.clearAllCaches cs))) = []
    /\
    store (MarketData.historicalDataCache (fst (MarketData.clearAllCaches cs)))
    = [].
Proof.
  intros svc cs symbol clk Hwf. split; [|split; [|repeat split]].
  - apply getPrice_absent_calls_primary.
    unfold MarketData.invalidateCache. cbn [fst MarketData.priceCache].
    rewrite store_del. now apply JsMapFacts.get_remove_same.
  - apply getPrice_absent_calls_primary. reflexivity.
Qed.

Lemma getPrice_after_invalidation_witness :
  let svc := MarketDataService.mkService
               (MarketDataService.mkProvider
                  (fun _ => inl (Js.Number (Js.of_Z 2)))) None in
  let pc := snd (set MarketDataService.priceCache "price:btc"
                     (Js.Number (Js.of_Z 1)) None 0 0 0) in
  let cs := MarketData.mkCaches pc
              (MarketData.marketDataCache MarketData.initial_caches)
              (MarketData.historicalDataCache MarketData.initial_caches) in
  exists rest,
    snd (MarketDataService.getPrice svc
           (MarketData.priceCache (fst (MarketData.invalidateCache cs "BTC")))
           "BTC" (MarketDataService.mkClock 1 1 1 1)) =
    MarketDataService.ProviderCall MarketDataService.Primary "BTC" :: rest.
Proof.
  cbv zeta.
  exact (proj1 (getPrice_after_invalidation
           (MarketDataService.mkService
              (MarketDataService.mkProvider
                 (fun _ => inl (Js.Number (Js.of_Z 2)))) None)
           (MarketData.mkCaches
              (snd (set MarketDataService.priceCache "price:btc"
                        (Js.Number (Js.of_Z 1)) None 0 0 0))
              (MarketData.marketDataCache MarketData.initial_caches)
              (MarketData.historicalDataCache MarketData.initial_caches))
           "BTC" (MarketDataService.mkClock 1 1 1 1)
           (CacheFacts.set_wf _ _ _ _ _ _ _ (CacheFacts.new_wf _)))).
Defined.

End Invalidation.

(* ------------------------------------------------------------------ *)
(** ** Validated symbols and cache keys *)

Section ValidatedKeys.

Lemma is_alnum_lower c :
  Validators.is_alnum c = true -> Validators.is_alnum (Js.lower_ascii c) = true.
Proof.
  destruct c as [[] [] [] [] [] [] [] []]; intros H;
    try discriminate H; reflexivity.
Qed.

Lemma lower_ascii_idempotent c :
  Js.lower_ascii (Js.lower_ascii c) = Js.lower_ascii c.
Proof. destruct c as [[] [] [] [] [] [] [] []]; reflexivity. Qed.

Lemma is_alnum_not_colon c : Validators.is_alnum c = true -> c <> ":"%char.
Proof. intros H ->. discriminate H. Qed.

Lemma toLowerCase_length s :
  String.length (Js.toLowerCase s) = String.length s.
Proof. induction s; simpl; congruence. Qed.

Lemma toLowerCase_alnum s :
  forallb Validators.is_alnum (list_ascii_of_string s) = true ->
  forallb Validators.is_alnum (list_ascii_of_string (Js.toLowerCase s)) = true.
Proof.
  induction s as [|c s IH]; simpl; [reflexivity|].
  intros H. apply andb_true_iff in H. destruct H as [Hc Hs].
  apply andb_true_iff. split; [now apply is_alnum_lower | now apply IH].
Qed.

Lemma toLowerCase_idempotent s :
  Js.toLowerCase (Js.toLowerCase s) = Js.toLowerCase s.
Proof.
  induction s as [|c s IH]; simpl; [reflexivity|].
  now rewrite lower_ascii_idempotent, IH.
Qed.

Lemma validateSymbol_inv s :
  Validators.validateSymbol (Js.Str s) = true ->
  (1 <= String.length s <= 10)%nat /\
  forallb Validators.is_alnum (list_ascii_of_string s) = true.
Proof.
  unfold Validators.validateSymbol, Validators.symbol_pattern.
  destruct (negb (Js.truthy (Js.Str s))); [discriminate|].
  intros H. apply andb_true_iff in H. destruct H as [H Ha].
  apply andb_true_iff in H. destruct H as [H1 H2].
  apply Nat.leb_le in H1, H2. auto.
Qed.

(** Splitting at the first colon is unambiguous when the parts before
    it contain none. *)
Lemma split_at_colon a : forall b x y,
  forallb Validators.is_alnum (list_ascii_of_string a) = true ->
  forallb Validators.is_alnum (list_ascii_of_string b) = true ->
  (a ++ ":" ++ x = b ++ ":" ++ y)%string ->
  a = b /\ x = y.
Proof.
  induction a as [|c a IH]; intros [|d b] x y Ha Hb H; simpl in *.
  - injection H as H. auto.
  - injection H as Hc _. apply andb_true_iff in Hb. destruct Hb as [Hd _].
    subst d. discriminate Hd.
  - injection H as Hc _. apply andb_true_iff in Ha. destruct Ha as [Hc' _].
    subst c. discriminate Hc'.
  - injection H as Hc H. apply andb_true_iff in Ha, Hb.
    destruct Ha as [_ Ha]. destruct Hb as [_ Hb].
    destruct (IH b x y Ha Hb H) as [-> ->]. subst. auto.
Qed.

(** X22. Cache keys do not collide for validated symbols. For two
    symbols that [validateSymbol] accepts, the historical cache keys of
    [(symbol, timeframe)] pairs are equal only if the lower-cased symbols
    are equal and the timeframes are equal: one pair never answers for
    another. *)
Theorem historicalKey_injective_on_valid_symbols :
  forall (s1 s2 t1 t2 : string),
    Validators.validateSymbol (Js.Str s1) = true ->
    Validators.validateSymbol (Js.Str s2) = true ->
    MarketData.historicalKey s1 t1 = MarketData.historicalKey s2 t2 ->
    Js.toLowerCase s1 = Js.toLowerCase s2 /\ t1 = t2.
Proof.
  intros s1 s2 t1 t2 H1 H2 Hk.
  apply validateSymbol_inv in H1, H2.
  destruct H1 as [_ H1]. destruct H2 as [_ H2].
  unfold MarketData.historicalKey in Hk. apply append_cancel_l in Hk.
  apply (split_at_colon _ _ _ _ (toLowerCase_alnum _ H1)
                        (toLowerCase_alnum _ H2) Hk).
Qed.

Lemma historicalKey_injective_on_valid_symbols_witness :
  Js.toLowerCase "BTC" = Js.toLowerCase "btc" /\ "7d"%string = "7d"%string.
Proof.
  exact (historicalKey_injective_on_valid_symbols "BTC" "btc" "7d" "7d"
           eq_refl eq_refl eq_refl).
Defined.

(** Without the validation the keys can collide. *)
Lemma historicalKey_collision_without_validation :
  MarketData.historicalKey "a:b" "c" = MarketData.historicalKey "a" "b:c" /\
  Validators.validateSymbol (Js.Str "a:b") = false.
Proof. split; reflexivity. Qed.

(** X23. Validation and key normalisation. A symbol that
    [validateSymbol] accepts is a non-empty string of at most ten
    characters; its lower-cased form is accepted too and has the same
    price, market-data and historical cache keys, so the caches do not
    distinguish the spellings; values that are not strings, and the empty
    string, are rejected. *)
Theorem validateSymbol_normalised :
  forall (s : string),
    Validators.validateSymbol (Js.Str s) = true ->
    s <> ""%string /\
    (String.length s <= 10)%nat /\
    Validators.validateSymbol (Js.Str (Js.toLowerCase s)) = true /\
    MarketDataService.cacheKey (Js.toLowerCase s) =
      MarketDataService.cacheKey s /\
    MarketData.marketDataKey (Js.toLowerCase s) = MarketData.marketDataKey s /\
    (forall tf, MarketData.historicalKey (Js.toLowerCase s) tf =
                MarketData.historicalKey s tf) /\
    Validators.validateSymbol (Js.Str "") = false /\
    (forall v, (forall s', v <> Js.Str s') ->
               Validators.validateSymbol v = false).
Proof.
  intros s H. destruct (validateSymbol_inv s H) as [[Hl1 Hl2] Ha].
  split; [intros ->; simpl in Hl1; lia|]. split; [exact Hl2|].
  split.
  - unfold Validators.validateSymbol, Validators.symbol_pattern.
    assert (Hne : Js.toLowerCase s <> ""%string).
    { intros Heq. apply (f_equal String.length) in Heq.
      rewrite toLowerCase_length in Heq. simpl in Heq. lia. }
    cbn [Js.truthy]. apply String.eqb_neq in Hne. rewrite Hne. cbn [negb].
    rewrite toLowerCase_length, (toLowerCase_alnum s Ha).
    apply Nat.leb_le in Hl1, Hl2. now rewrite Hl1, Hl2.
  - unfold MarketDataService.cacheKey, MarketData.marketDataKey,
      MarketData.historicalKey. rewrite toLowerCase_idempotent.
    repeat split. intros v Hv. destruct v; try reflexivity.
    exfalso. now apply (Hv s0).
Qed.

Lemma validateSymbol_normalised_witness :
  Validators.validateSymbol (Js.Str "btc") = true /\
  MarketDataService.cacheKey "btc" = MarketDataService.cacheKey "BTC".
Proof.
  destruct (validateSymbol_normalised "BTC" eq_refl) as [_ [_ [H1 [H2 _]]]].
  exact (conj H1 H2).
Defined.

End ValidatedKeys.

(* ------------------------------------------------------------------ *)
(** ** The timeframe tables *)

Section TimeframeTables.
Import Timeframes.

(** X24. The two timeframe tables. For every timeframe string,
    [getTimeframeDetails] gives 100 intervals of a positive number of
    hours, and [getTimeframeHours] gives between 1 and 720 hours; the two
    agree on the hours of a timeframe exactly for ["1h"], ["4h"], ["1d"]
    and ["1w"] (the month is spelled ["1M"] in one table and ["1m"] in the
    other, and the defaults are 24 hours and 1 hour). *)
Theorem timeframe_tables :
  forall (tf : string),
    intervals (getTimeframeDetails tf) = 100 /\
    (0 < hoursPerInterval (getTimeframeDetails tf))%Q /\
    1 <= getTimeframeHours tf <= 720 /\
    ((hoursPerInterval (getTimeframeDetails tf)
      == inject_Z (getTimeframeHours tf))%Q <->
     In tf ["1h"; "4h"; "1d"; "1w"]%string).
Proof.
  intros tf. unfold getTimeframeDetails, getTimeframeHours.
  destruct (String.eqb_spec tf "5m") as [->|N1];
    [vm_compute; intuition (try discriminate; try congruence)|].
  destruct (String.eqb_spec tf "15m") as [->|N2];
    [vm_compute; intuition (try discriminate; try congruence)|].
  destruct (String.eqb_spec tf "30m") as [->|N3];
    [vm_compute; intuition (try discriminate; try congruence)|].
  destruct (String.eqb_spec tf "1h") as [->|N4];
    [vm_compute; intuition (try discriminate; try congruence)|].
  destruct (String.eqb_spec tf "4h") as [->|N5];
    [vm_compute; intuition (try discriminate; try congruence)|].
  destruct (String.eqb_spec tf "1d") as [->|N6];
    [vm_compute; intuition (try discriminate; try congruence)|].
  destruct (String.eqb_spec tf "1w") as [->|N7];
    [vm_compute; intuition (try discriminate; try congruence)|].
  destruct (String.eqb_spec tf "1M") as [->|N8];
    [vm_compute; intuition (try discriminate; try congruence)|].
  destruct (String.eqb_spec tf "1m") as [->|N9];
    [vm_compute; intuition (try discriminate; try congruence)|].
  cbn [intervals hoursPerInterval].
  split; [reflexivity|]. split; [reflexivity|]. split; [lia|].
  split.
  - intros H. vm_compute in H. discriminate H.
  - intros [H | [H | [H | [H | []]]]]; congruence.
Qed.

End TimeframeTables.

(* ------------------------------------------------------------------ *)
(** ** The price route and the error middleware *)

Section RouteErrors.
Import ErrorHandler.

(** X25. An invalid symbol never reaches the service. When
    [validateSymbol] rejects the symbol, the price route forwards an
    [AppError] "Invalid symbol" of status 400 without reading the cache
    (not even a miss is counted), calling a provider or logging; the
    error middleware answers it with status 400, that message and the
    default code ["INTERNAL_ERROR"] of [AppError]. *)
Theorem price_route_invalid_symbol :
  forall (svc : MarketDataService.t) (pc : Cache.t) (symbol : string)
         (clk : MarketDataService.clock) (now : Z)
         (stack_text : string) (development : bool),
    Validators.validateSymbol (Js.Str symbol) = false ->
    price_route svc pc symbol clk now =
      (Forwarded (Errors.AppError "Invalid symbol" 400 "INTERNAL_ERROR"),
       pc, []) /\
    let res :=
      errorHandler
        (of_error (Errors.AppError "Invalid symbol" 400 "INTERNAL_ERROR")
                  stack_text) development in
    status res = Js.Number (Js.of_Z 400) /\
    error_message res = "Invalid symbol"%string /\
    error_code res = Js.Str "INTERNAL_ERROR" /\
    error_details res = Js.Undefined.
Proof.
  intros svc pc symbol clk now st dev Hv. split.
  - unfold price_route. now rewrite Hv.
  - cbv zeta. repeat split.
Qed.

Lemma price_route_invalid_symbol_witness :
  price_route
    (MarketDataService.mkService
       (MarketDataService.mkProvider (fun _ => inl (Js.Number (Js.of_Z 1))))
       None)
    MarketDataService.priceCache "BTC-USD"
    (MarketDataService.mkClock 1 1 1 1) 1 =
  (Forwarded (Errors.AppError "Invalid symbol" 400 "INTERNAL_ERROR"),
   MarketDataService.priceCache, []).
Proof.
  exact (proj1 (price_route_invalid_symbol
    (MarketDataService.mkService
       (MarketDataService.mkProvider (fun _ => inl (Js.Number (Js.of_Z 1))))
       None)
    MarketDataService.priceCache "BTC-USD"
    (MarketDataService.mkClock 1 1 1 1) 1 "" false eq_refl)).
Defined.

(** X26. Total provider failure, end to end. For a valid symbol whose
    lookup misses, when the primary and the fallback provider both fail,
    the price route forwards the service's [AppError], and the error
    middleware answers with status 500, code ["INTERNAL_ERROR"] and the
    message "Failed to get price for <symbol> from any provider": the
    provider messages do not reach the response, and outside development
    mode neither does a stack trace. *)
Theorem price_route_total_failure :
  forall (svc : MarketDataService.t) (pc : Cache.t) (symbol : string)
         (clk : MarketDataService.clock) (now : Z)
         (fallback : MarketDataService.provider) (e1 e2 : Errors.error)
         (stack_text : string),
    Validators.validateSymbol (Js.Str symbol) = true ->
    fst (Cache.has pc (MarketDataService.cacheKey symbol)
                   (MarketDataService.at_get clk)) = false ->
    MarketDataService.getCurrentPrice
      (MarketDataService.primaryProvider svc) symbol = inr e1 ->
    MarketDataService.fallbackProviderInstance svc = Some fallback ->
    MarketDataService.getCurrentPrice fallback symbol = inr e2 ->
    exists e,
      fst (fst (price_route svc pc symbol clk now)) = Forwarded e /\
      errorHandler (of_error e stack_text) false =
        {| status := Js.Number (Js.of_Z 500);
           error_message :=
             "Failed to get price for " ++ symbol ++ " from any provider";
           error_code := Js.Str "INTERNAL_ERROR";
           error_status := Js.Number (Js.of_Z 500);
           error_details := Js.Undefined;
           error_stack := Js.Undefined |}.
Proof.
  intros svc pc symbol clk now fb e1 e2 st Hv Hmiss Hprim Hfb Hfall.
  exists (Errors.AppError
            ("Failed to get price for " ++ symbol ++ " from any provider")
            500 "INTERNAL_ERROR").
  split.
  - unfold price_route. rewrite Hv. cbn [negb].
    unfold MarketDataService.getPrice.
    rewrite (getPrice_after_miss pc symbol clk Hmiss).
    simpl Js.truthy. cbv iota. now rewrite Hprim, Hfb, Hfall.
  - reflexivity.
Qed.

Lemma price_route_total_failure_witness :
  exists e,
    fst (fst (price_route
      (MarketDataService.mkService
         (MarketDataService.mkProvider (fun _ => inr (Errors.Error "timeout")))
         (Some (MarketDataService.mkProvider
                  (fun _ => inr (Errors.Error "timeout")))))
      MarketDataService.priceCache "ETH"
      (MarketDataService.mkClock 1 1 1 1) 1)) = Forwarded e /\
    errorHandler (of_error e "") false =
      {| status := Js.Number (Js.of_Z 500);
         error_message := "Failed to get price for ETH from any provider";
         error_code := Js.Str "INTERNAL_ERROR";
         error_status := Js.Number (Js.of_Z 500);
         error_details := Js.Undefined;
         error_stack := Js.Undefined |}.
Proof.
  exact (price_route_total_failure
    (MarketDataService.mkService
       (MarketDataService.mkProvider (fun _ => inr (Errors.Error "timeout")))
       (Some (MarketDataService.mkProvider
                (fun _ => inr (Errors.Error "timeout")))))
    MarketDataService.priceCache "ETH"
    (MarketDataService.mkClock 1 1 1 1) 1
    (MarketDataService.mkProvider (fun _ => inr (Errors.Error "timeout")))
    (Errors.Error "timeout") (Errors.Error "timeout") ""
    eq_refl eq_refl eq_refl eq_refl eq_refl).
Defined.

(** X27. What the error middleware always guarantees. For every error
    object, the response has a truthy status, repeated in the body, and
    a non-empty message. The status is 400 for an error named
    [ValidationError]; otherwise 400 for a [SyntaxError] whose message
    mentions JSON; otherwise 409 for a [MongoError] with code 11000;
    otherwise the error's own [statusCode] when that is truthy, and 500
    when it is not. Each special case also fixes the code (and, for the
    last two, the message). Outside development mode the response
    carries no stack trace. *)
Theorem errorHandler_guarantees :
  forall (err : error_object) (development : bool),
    let res := errorHandler err development in
    let validation := String.eqb (name err) "ValidationError" in
    let bad_json :=
      String.eqb (name err) "SyntaxError"
      && Js.includes (message err) "JSON" in
    let duplicate :=
      String.eqb (name err) "MongoError" && is_number (code err) 11000 in
    Js.truthy (status res) = true /\
    error_status res = status res /\
    error_message res <> ""%string /\
    (status res = statusCode err \/
     status res = Js.Number (Js.of_Z 500) \/
     status res = Js.Number (Js.of_Z 400) \/
     status res = Js.Number (Js.of_Z 409)) /\
    (validation = true ->
     status res = Js.Number (Js.of_Z 400) /\
     error_code res = Js.Str "VALIDATION_ERROR") /\
    (validation = false -> bad_json = true ->
     status res = Js.Number (Js.of_Z 400) /\
     error_code res = Js.Str "INVALID_JSON" /\
     error_message res = "Invalid JSON in request body"%string) /\
    (validation = false -> bad_json = false -> duplicate = true ->
     status res = Js.Number (Js.of_Z 409) /\
     error_code res = Js.Str "DUPLICATE_ENTITY" /\
     error_message res = "Entity already exists"%string) /\
    (validation = false -> bad_json = false -> duplicate = false ->
     (Js.truthy (statusCode err) = true -> status res = statusCode err) /\
     (Js.truthy (statusCode err) = false ->
      status res = Js.Number (Js.of_Z 500)) /\
     (Js.truthy (code err) = true -> error_code res = code err) /\
     (Js.truthy (code err) = false ->
      error_code res = Js.Str "SERVER_ERROR")) /\
    (development = false -> error_stack res = Js.Undefined).
Proof.
  intros err dev res validation bad_json duplicate.
  unfold res, validation, bad_json, duplicate, errorHandler.
  assert (Hmsg : (if Js.truthy (Js.Str (message err)) then message err
                  else "Internal Server Error"%string) <> ""%string).
  { cbn [Js.truthy]. destruct (String.eqb_spec (message err) "");
      cbn [negb]; [discriminate | assumption]. }
  assert (Hst : Js.truthy (or_value (statusCode err) (Js.Number (Js.of_Z 500)))
                = true).
  { unfold or_value. destruct (Js.truthy (statusCode err)) eqn:E;
      [exact E | reflexivity]. }
  assert (Hor : (Js.truthy (statusCode err) = true ->
                 or_value (statusCode err) (Js.Number (Js.of_Z 500))
                 = statusCode err) /\
                (Js.truthy (statusCode err) = false ->
                 or_value (statusCode err) (Js.Number (Js.of_Z 500))
                 = Js.Number (Js.of_Z 500))).
  { unfold or_value. destruct (Js.truthy (statusCode err));
      split; intros H; try discriminate H; reflexivity. }
  assert (Hcode : (Js.truthy (code err) = true ->
                   or_value (code err) (Js.Str "SERVER_ERROR") = code err) /\
                  (Js.truthy (code err) = false ->
                   or_value (code err) (Js.Str "SERVER_ERROR")
                   = Js.Str "SERVER_ERROR")).
  { unfold or_value. destruct (Js.truthy (code err));
      split; intros H; try discriminate H; reflexivity. }
  assert (Hstack : dev = false ->
                   (if dev then stack err else Js.Undefined) = Js.Undefined).
  { intros ->. reflexivity. }
  destruct (String.eqb (name err) "ValidationError").
  - cbn [status error_status error_message error_code error_stack].
    split; [reflexivity|]. split; [reflexivity|]. split; [exact Hmsg|].
    split; [right; right; now left|].
    split; [intros _; split; reflexivity|].
    split; [discriminate|]. split; [discriminate|].
    split; [discriminate | exact Hstack].
  - destruct (String.eqb (name err) "SyntaxError"
              && Js.includes (message err) "JSON").
    + cbn [status error_status error_message error_code error_stack].
      split; [reflexivity|]. split; [reflexivity|]. split; [discriminate|].
      split; [right; right; now left|].
      split; [discriminate|].
      split; [intros _ _; repeat split|].
      split; [intros _ H; discriminate H|].
      split; [intros _ H; discriminate H | exact Hstack].
    + destruct (String.eqb (name err) "MongoError"
                && is_number (code err) 11000).
      * cbn [status error_status error_message error_code error_stack].
        split; [reflexivity|]. split; [reflexivity|]. split; [discriminate|].
        split; [right; right; now right|].
        split; [discriminate|].
        split; [intros _ H; discriminate H|].
        split; [intros _ _ _; repeat split|].
        split; [intros _ _ H; discriminate H | exact Hstack].
      * cbn [status error_status error_message error_code error_stack].
        split; [exact Hst|]. split; [reflexivity|]. split; [exact Hmsg|].
        split.
        { destruct (Js.truthy (statusCode err)) eqn:E;
            [left; now apply Hor | right; left; now apply Hor]. }
        split; [discriminate|].
        split; [intros _ H; discriminate H|].
        split; [intros _ _ H; discriminate H|].
        split; [|exact Hstack].
        intros _ _ _. destruct Hor as [Ho1 Ho2]. destruct Hcode as [Hc1 Hc2].
        repeat split; assumption.
Qed.

End RouteErrors.

(* ------------------------------------------------------------------ *)
(** ** The cache: an entry from its creation to its removal *)

Section EntryLifetime.
Import Cache.

Lemma get_remove_Some k k0 e (s : JsMap.t entry) :
  JsMap.wf s ->
  JsMap.get k (JsMap.remove k0 s) = Some e -> JsMap.get k s = Some e.
Proof.
  intros Hwf H. destruct (string_dec k0 k) as [-> | Hne].
  - rewrite JsMapFacts.get_remove_same in H by exact Hwf. discriminate.
  - now rewrite JsMapFacts.get_remove_other in H by exact Hne.
Qed.

Lemma get_evict_Some k e (s : JsMap.t entry) now :
  JsMap.wf s ->
  JsMap.get k (evict s now) = Some e -> JsMap.get k s = Some e.
Proof.
  intros Hwf H.
  destruct (CacheFacts.evict_cases s now) as [Heq | [k0 [_ [_ Heq]]]];
    rewrite Heq in H; [exact H | now apply get_remove_Some in H].
Qed.

Lemma get_filter_Some (f : string * entry -> bool) k e (s : JsMap.t entry) :
  JsMap.wf s ->
  JsMap.get k (filter f s) = Some e -> JsMap.get k s = Some e.
Proof.
  intros Hwf H. rewrite get_filter in H by exact Hwf.
  destruct (JsMap.get k s) as [e0|]; [|discriminate].
  destruct (f (k, e0)); [exact H | discriminate].
Qed.

(** A call that is not a [set] on [key] never puts a new entry under
    [key]: what is found there afterwards was there before. *)
Lemma entry_under_key_exec c op key e :
  JsMap.wf (store c) ->
  Spec.no_set_on key [op] ->
  JsMap.get key (store (exec c op)) = Some e ->
  JsMap.get key (store c) = Some e.
Proof.
  intros Hwf Hop. apply Forall_inv in Hop.
  destruct op; unfold exec.
  - rewrite CacheFacts.store_set.
    rewrite JsMapFacts.get_set_other by exact Hop.
    destruct (_ >=? _); [now apply get_evict_Some | auto].
  - unfold get. destruct (JsMap.get key0 (store c)); cbn [snd store with_stats with_store]; [|auto].
    destruct (now >? expiry e0); cbn [snd store with_stats with_store];
      [now apply get_remove_Some | auto].
  - unfold has. destruct (JsMap.get key0 (store c)); cbn [snd store with_store]; [|auto].
    destruct (now >? expiry e0); cbn [snd store with_store];
      [now apply get_remove_Some | auto].
  - rewrite store_del. now apply get_remove_Some.
  - discriminate.
  - unfold values. cbn [snd store with_store]. now apply get_filter_Some.
  - unfold prune. destruct (0 <? _)%nat; cbn [snd store with_stats with_store];
      now apply get_filter_Some.
Qed.

Lemma entry_under_key_run ops : forall c key e,
  JsMap.wf (store c) ->
  Spec.no_set_on key ops ->
  JsMap.get key (store (run c ops)) = Some e ->
  JsMap.get key (store c) = Some e.
Proof.
  induction ops as [|op ops IH]; intros c key e Hwf Hops H; [exact H|].
  inversion Hops as [|? ? Hop Hrest]; subst.
  cbn [run fold_left] in H. fold (run (exec c op) ops) in H.
  apply (entry_under_key_exec c op key e Hwf).
  - constructor; [exact Hop | constructor].
  - apply (IH (exec c op) key e); [now apply CacheFacts.exec_wf | exact Hrest | exact H].
Qed.

(** C7, as the code has it. Take a [set(key, value, ttl)] whose effective
    TTL (the [ttl] argument when it is a non-zero number, otherwise the
    default TTL of the cache) is a whole number of milliseconds, at least
    1, and whose clock does not run backwards between the reading stored
    as [timestamp] and the one used for [expiry]. The entry it creates
    satisfies [expiry > timestamp], and it does so for as long as it is
    stored: through any further method calls, until the key is set again,
    whatever is found under the key is that same entry, unchanged. *)
Theorem entry_expiry_after_timestamp :
  forall (c : t) (key : string) (v : Js.value) (ttl_arg : option Z)
         (now_scan now_stamp now_exp : Z),
    JsMap.wf (store c) ->
    now_stamp <= now_exp ->
    1 <= Js.or_default ttl_arg (ttl c) ->
    let c1 := snd (set c key v ttl_arg now_scan now_stamp now_exp) in
    let e := mkEntry v now_stamp (now_exp + Js.or_default ttl_arg (ttl c)) in
    JsMap.get key (store c1) = Some e /\
    timestamp e < expiry e /\
    (forall (ops : list call) (e' : entry),
       Spec.no_set_on key ops ->
       JsMap.get key (store (run c1 ops)) = Some e' ->
       e' = e /\ timestamp e' < expiry e').
Proof.
  intros c key v a t0 t1 t2 Hwf Hclock Httl c1 e.
  assert (Hget : JsMap.get key (store c1) = Some e).
  { unfold c1. rewrite CacheFacts.store_set. apply JsMapFacts.get_set_same. }
  assert (He : timestamp e < expiry e) by (unfold e; simpl; lia).
  split; [exact Hget|]. split; [exact He|].
  intros ops e' Hops H.
  assert (Hwf1 : JsMap.wf (store c1)) by now apply CacheFacts.set_wf.
  apply (entry_under_key_run ops c1 key e' Hwf1 Hops) in H.
  rewrite Hget in H. injection H as <-. split; [reflexivity | exact He].
Qed.

Lemma entry_expiry_after_timestamp_witness :
  let c1 := snd (set (new (mkOptions None None)) "BTC"
                     (Js.Number (Js.of_Z 50000)) (Some 60000)
                     1000 1000 1001) in
  let ops := [CallGet "BTC" 2000;
              CallSet "ETH" (Js.Number (Js.of_Z 3000)) (Some (-5))
                      2001 2001 2001;
              CallPrune 3000] in
  let e := mkEntry (Js.Number (Js.of_Z 50000)) 1000 61001 in
  JsMap.get "BTC" (store (run c1 ops)) = Some e /\
  JsMap.get "ETH" (store (run c1 ops)) = None /\
  timestamp e < expiry e.
Proof.
  cbv zeta. split; [reflexivity|]. split; [reflexivity|].
  pose proof (entry_expiry_after_timestamp
                (new (mkOptions None None)) "BTC"
                (Js.Number (Js.of_Z 50000)) (Some 60000) 1000 1000 1001
                (CacheFacts.new_wf _) ltac:(lia) ltac:(simpl; lia)) as T.
  cbv zeta in T. destruct T as [_ [_ T]].
  refine (proj2 (T [CallGet "BTC" 2000;
                    CallSet "ETH" (Js.Number (Js.of_Z 3000)) (Some (-5))
                            2001 2001 2001;
                    CallPrune 3000]
                   (mkEntry (Js.Number (Js.of_Z 50000)) 1000 61001) _ eq_refl)).
  repeat constructor. discriminate.
Defined.

(** Why the statement is about whole milliseconds: in binary64 a
    current timestamp plus a tenth of a microsecond is the timestamp
    itself, so a TTL that small would leave [expiry] equal to
    [timestamp]. *)
Lemma tiny_ttl_is_absorbed :
  exists q,
    Js.to_double (inject_Z 1700000000000 + (1 # 10000)) = Js.Num q /\
    (q == inject_Z 1700000000000)%Q.
Proof. eexists. split; [vm_compute; reflexivity | reflexivity]. Qed.

End EntryLifetime.
